(** * Flow-Logs-Processor: a shallow embedding of [solution.py]

    The development follows the four methods of [FlowLogsProcessor]:
    [read_lookup_table], [process_flow_logs], [match_flowdata_tags] and
    [write_results_to_csv], and their composition [generate_output].

    Conventions of the embedding.
    - A Python [str] is a [string] whose characters are the code points
      U+0000 .. U+00FF. [str.lower], [str.strip] and [str.split] are written
      out for that range; text outside it, and the decoding of the bytes
      of a file, are not covered.
    - A Python [int] is a [Z].
    - The dictionaries whose iteration order is observable ([tag_count],
      [portprotocol_count]) are association lists kept in insertion order;
      the lookup table, which is only ever probed with [get], is a [gmap].
    - The file system and the [csv] module are outside the embedding: a file
      to read is given by what [open] does and by the lines (or the rows
      that [csv.reader] yields) it gives before it ends or fails, the file to
      write by whether it can be written, and the output is the sequence of
      rows handed to [csv.writer.writerow].
    - [print] appends a [message] to the standard output. *)

From Stdlib Require Import Ascii NArith ZArith.
From Stdlib Require String.
From stdpp Require Import base option list strings gmap fin_maps.

#[local] Open Scope Z_scope.

(** ** Characters and strings *)

Module Str.

(** [str.isspace] on one code point below U+0100: the ASCII white space
    (tab, line feed, vertical tab, form feed, carriage return, the four
    information separators, space), NEL (U+0085) and the no-break space
    (U+00A0). *)
Definition isspace (c : ascii) : bool :=
  let n := N_of_ascii c in
  ((9 <=? n) && (n <=? 13) || (28 <=? n) && (n <=? 32)
   || (n =? 133) || (n =? 160))%N.

(** The upper-case letters below U+0100: A-Z, and the Latin-1 letters
    U+00C0 .. U+00DE without the multiplication sign U+00D7. *)
Definition isupper (c : ascii) : bool :=
  let n := N_of_ascii c in
  ((65 <=? n) && (n <=? 90)
   || (192 <=? n) && (n <=? 222) && negb (n =? 215))%N.

(** The lower-case form of a letter is 32 code points above it. *)
Definition lower_char (c : ascii) : ascii :=
  if isupper c then ascii_of_N (N_of_ascii c + 32) else c.

(** [s.lower()] *)
Fixpoint lower (s : string) : string :=
  match s with
  | EmptyString => EmptyString
  | String c s' => String (lower_char c) (lower s')
  end.

(** [s.lstrip()] *)
Fixpoint lstrip (s : string) : string :=
  match s with
  | EmptyString => EmptyString
  | String c s' => if isspace c then lstrip s' else s
  end.

(** [s.rstrip()]: a character is kept when something that is kept, or the
    character itself, is not white space. *)
Fixpoint rstrip (s : string) : string :=
  match s with
  | EmptyString => EmptyString
  | String c s' =>
      match rstrip s' with
      | EmptyString => if isspace c then EmptyString else String c EmptyString
      | r => String c r
      end
  end.

(** [s.strip()] *)
Definition strip (s : string) : string := rstrip (lstrip s).

(** [s.split()] with no separator: the maximal runs of characters that are
    not white space, in order. [word] is the run being scanned. *)
Fixpoint split_from (word : string) (s : string) : list string :=
  match s with
  | EmptyString =>
      match word with EmptyString => [] | _ => [word] end
  | String c s' =>
      if isspace c then
        match word with
        | EmptyString => split_from EmptyString s'
        | _ => word :: split_from EmptyString s'
        end
      else split_from (word +:+ String c EmptyString) s'
  end.

Definition split (s : string) : list string := split_from EmptyString s.

(** The decimal digits, and the strings made of them. *)
Definition isdigit (c : ascii) : bool :=
  let n := N_of_ascii c in ((48 <=? n) && (n <=? 57))%N.

Fixpoint all_digits (s : string) : bool :=
  match s with
  | EmptyString => true
  | String c s' => isdigit c && all_digits s'
  end.

End Str.

(** [b.lower()] on [bytes]: only the ASCII letters A-Z change. *)
Definition bytes_lower_char (c : ascii) : ascii :=
  let n := N_of_ascii c in
  if ((65 <=? n) && (n <=? 90))%N then ascii_of_N (n + 32) else c.

Fixpoint bytes_lower (b : string) : string :=
  match b with
  | EmptyString => EmptyString
  | String c b' => String (bytes_lower_char c) (bytes_lower b')
  end.

(** ** Python values, exceptions and the standard output *)

(** The values of the embedding: [str], [bytes] (a sequence of octets),
    [int], [None] and [list] of [str]. The annotations of
    [match_flowdata_tags] promise [str] for both components of an entry of
    the flow data; the other constructors are values of the built-in types
    that the [try] block of its loop can meet instead: [bytes] has a [lower]
    method and can be hashed, [int] and [None] can be hashed and have no
    [lower], a [list] cannot be hashed. Values of other types are not in the
    embedding, and the flow data is a list of pairs, as [process_flow_logs]
    builds it: an entry that is not a pair fails at the [for] statement of
    line 112, before the [try] block. *)
Inductive pyval : Type :=
  | PStr (s : string)
  | PBytes (b : string)
  | PInt (i : Z)
  | PNone
  | PList (items : list string).

#[global] Instance pyval_eq_dec : EqDecision pyval.
Proof. solve_decision. Defined.

Inductive exn : Type :=
  | FileNotFoundError
  | PermissionError
  | OSError
  | UnicodeDecodeError
  | CsvError
  | StopIteration
  | IndexError
  | ValueError
  | AttributeError
  | TypeError.

(** One constructor per [print] call of the source, with the values that
    are interpolated into the text. *)
Inductive message : Type :=
  | WarnInsufficientFields (line_number : nat)
  | ErrMalformedLine (line_number : nat)
  | ErrFlowLogNotFound
  | ErrFlowLogPermission
  | ErrFlowLogUnexpected (e : exn)
  | WarnLookupRow (row_number : nat)
  | ErrLookupNotFound
  | ErrLookupPermission
  | ErrLookupMalformed
  | ErrLookupUnexpected (e : exn)
  | ErrProcessingEntry (dst_port protocol_num : pyval) (e : exn)
  | ResultsWritten
  | ErrUnexpected (e : exn).

(** What [open(path, 'r')] finds, and the items read from the file: lines
    for the flow log, rows of [csv.reader] for the lookup table. [Missing]
    and [Unreadable] are an [open] that raises [FileNotFoundError] and
    [PermissionError]; [Contents] is a file read to its end; [Failing] is a
    file that gives [items] and then raises [e], at [open] when there is no
    item before it (a directory, an I/O error) or while it is read (bytes
    that cannot be decoded, a row that [csv] refuses). *)
Inductive file (A : Type) : Type :=
  | Missing
  | Unreadable
  | Contents (items : list A)
  | Failing (items : list A) (e : exn).
Arguments Missing {A}.
Arguments Unreadable {A}.
Arguments Contents {A} items.
Arguments Failing {A} items e.

(** Whether the output can be written: [create_directory], [open(path, 'w')]
    and the writes go through, or one of them raises [e]. *)
Inductive target : Type :=
  | Writable
  | Unwritable (e : exn).

(** A method either returns or leaves the process through [sys.exit]. *)
Inductive outcome (A : Type) : Type :=
  | Returned (a : A)
  | Exited (status : Z).
Arguments Returned {A} a.
Arguments Exited {A} status.

(** [hash(v)] raises [TypeError] on a list. *)
Definition hashable (v : pyval) : bool :=
  match v with PList _ => false | _ => true end.

(** ** Dictionaries in insertion order *)

Section Dict.
Context {K V : Type} `{EqDecision K}.

(** [d.get(k)] *)
Fixpoint dict_lookup (d : list (K * V)) (k : K) : option V :=
  match d with
  | [] => None
  | (k', v) :: d' => if decide (k = k') then Some v else dict_lookup d' k
  end.

(** [d.get(k, dflt)] *)
Definition dict_get (d : list (K * V)) (k : K) (dflt : V) : V :=
  default dflt (dict_lookup d k).

(** [d[k] = v]: an existing key keeps its place, a new one goes last. *)
Fixpoint dict_set (d : list (K * V)) (k : K) (v : V) : list (K * V) :=
  match d with
  | [] => [(k, v)]
  | (k', v') :: d' =>
      if decide (k = k') then (k', v) :: d' else (k', v') :: dict_set d' k v
  end.

(** [d.items()] is the list itself; [d.keys()] and [d.values()]: *)
Definition dict_keys (d : list (K * V)) : list K := d.*1.
Definition dict_values (d : list (K * V)) : list V := d.*2.
End Dict.

(** The distinct elements of [xs] in the order of their first occurrence,
    after those already [seen]. *)
Fixpoint first_seen {A : Type} `{EqDecision A} (seen xs : list A) : list A :=
  match xs with
  | [] => seen
  | x :: xs' => first_seen (if decide (x ∈ seen) then seen else seen ++ [x]) xs'
  end.

(** [sum(d.values())] *)
Definition sum_values {K : Type} (d : list (K * Z)) : Z :=
  foldr Z.add 0 (dict_values d).

(** ** The aggregator: [match_flowdata_tags] *)

(** The class constant [PROTOCOL_MAP]. *)
Definition PROTOCOL_MAP : gmap string string :=
  {[ "6" := "tcp"; "17" := "udp"; "1" := "icmp" ]}.

(** The two tables the loop mutates. *)
Record tables : Type := Tables {
  tag_count : list (string * Z);
  portprotocol_count : list ((pyval * pyval) * Z);
}.

(** Statements of the [try] block: they read and mutate the tables, and
    return or raise. A mutation made before a raise stays. *)
Definition stmt (A : Type) : Type := tables → tables * (exn + A).

Definition ret {A} (a : A) : stmt A := λ t, (t, inr a).
Definition raise {A} (e : exn) : stmt A := λ t, (t, inl e).
Definition bind {A B} (m : stmt A) (f : A → stmt B) : stmt B :=
  λ t, match m t with
       | (t', inr a) => f a t'
       | (t', inl e) => (t', inl e)
       end.

Notation "x ←' m ; f" := (bind m (λ x, f))
  (at level 20, m at level 100, f at level 200, right associativity,
   format "'[' x  ←'  m ; '/' f ']'").
Notation "m ;;' f" := (bind m (λ _, f))
  (at level 100, f at level 200, right associativity).

(** [self.PROTOCOL_MAP.get(protocol_num, protocol_num)]: the probe hashes its
    argument; only a [str] can be equal to a key of the map. *)
Definition protocol_map_get (protocol_num : pyval) : stmt pyval :=
  match protocol_num with
  | PStr s =>
      ret (match PROTOCOL_MAP !! s with Some name => PStr name | None => protocol_num end)
  | PBytes _ | PInt _ | PNone => ret protocol_num
  | PList _ => raise TypeError
  end.

(** [v.lower()]: [str] and [bytes] have the method, [int], [None] and [list]
    do not. *)
Definition py_lower (v : pyval) : stmt pyval :=
  match v with
  | PStr s => ret (PStr (Str.lower s))
  | PBytes b => ret (PBytes (bytes_lower b))
  | PInt _ | PNone | PList _ => raise AttributeError
  end.

(** Line 114 when [protocol_num] is a [str]:
    [self.PROTOCOL_MAP.get(protocol_num, protocol_num).lower()]. *)
Definition normalize (protocol_num : string) : string :=
  Str.lower (default protocol_num (PROTOCOL_MAP !! protocol_num)).

(** [portprotocol_count.get(key, 0)] and [portprotocol_count[key] = n]; the
    key is a tuple, hashed through its components. *)
Definition portprotocol_get (key : pyval * pyval) : stmt Z :=
  λ t, if hashable key.1 && hashable key.2
       then (t, inr (dict_get (portprotocol_count t) key 0))
       else (t, inl TypeError).

Definition portprotocol_set (key : pyval * pyval) (n : Z) : stmt unit :=
  λ t, if hashable key.1 && hashable key.2
       then (Tables (tag_count t) (dict_set (portprotocol_count t) key n), inr tt)
       else (t, inl TypeError).

(** [lookup_table.get(key, "Untagged")]: the keys of the lookup table are
    pairs of [str], and a [str] is equal to no value of another type. *)
Definition lookup_get (lookup_table : gmap (string * string) string)
    (key : pyval * pyval) (dflt : string) : stmt string :=
  if hashable key.1 && hashable key.2
  then match key with
       | (PStr port, PStr name) => ret (default dflt (lookup_table !! (port, name)))
       | _ => ret dflt
       end
  else raise TypeError.

(** [tag_count.get(tag, 0)] and [tag_count[tag] = n] *)
Definition tag_get (tag : string) : stmt Z :=
  λ t, (t, inr (dict_get (tag_count t) tag 0)).

Definition tag_set (tag : string) (n : Z) : stmt unit :=
  λ t, (Tables (dict_set (tag_count t) tag n) (portprotocol_count t), inr tt).

(** Lines 114-122: the body of the [try] block. *)
Definition classify (lookup_table : gmap (string * string) string)
    (dst_port protocol_num : pyval) : stmt unit :=
  mapped ←' protocol_map_get protocol_num;
  protocol_name ←' py_lower mapped;
  let key := (dst_port, protocol_name) in
  seen ←' portprotocol_get key;
  portprotocol_set key (seen + 1) ;;'
  tag ←' lookup_get lookup_table key "Untagged";
  n ←' tag_get tag;
  tag_set tag (n + 1).

(** One iteration of the loop: the [try] block and its handler, which prints
    and goes on with the next entry. *)
Definition match_entry (lookup_table : gmap (string * string) string)
    (st : tables * list message) (entry : pyval * pyval) : tables * list message :=
  match classify lookup_table entry.1 entry.2 st.1 with
  | (t, inr _) => (t, st.2)
  | (t, inl e) => (t, st.2 ++ [ErrProcessingEntry entry.1 entry.2 e])
  end.

(** Lines 110-125. The result is the pair of tables and what was printed. *)
Definition match_flowdata_tags (flow_data : list (pyval * pyval))
    (lookup_table : gmap (string * string) string) : tables * list message :=
  foldl (match_entry lookup_table) (Tables [] [], []) flow_data.

(** The tag that line 121 gives to a flow record. *)
Definition tag_of (lookup_table : gmap (string * string) string)
    (record : string * string) : string :=
  default "Untagged" (lookup_table !! (record.1, normalize record.2)).

(** The key of [portprotocol_count] that line 115 forms for a flow record. *)
Definition key_of (record : string * string) : pyval * pyval :=
  (PStr record.1, PStr (normalize record.2)).

(** One entry in a table: [d[k] = d.get(k, 0) + 1]. *)
Definition count {K : Type} `{EqDecision K} (d : list (K * Z)) (k : K) : list (K * Z) :=
  dict_set d k (dict_get d k 0 + 1).

(** ** The extractor: [process_flow_logs] *)

(** [enumerate(xs, start)] *)
Fixpoint enumerate {A : Type} (start : nat) (xs : list A) : list (nat * A) :=
  match xs with
  | [] => []
  | x :: xs' => (start, x) :: enumerate (S start) xs'
  end.

(** Lines 51-58: one iteration, on the records collected so far and the
    standard output. Indexing [fields] out of range raises [IndexError],
    which the inner handler reports. *)
Definition read_line (st : list (string * string) * list message)
    (numbered : nat * string) : list (string * string) * list message :=
  let fields := Str.split (Str.strip numbered.2) in
  if bool_decide (length fields < 8)%nat
  then (st.1, st.2 ++ [WarnInsufficientFields numbered.1])
  else match fields !! 6%nat, fields !! 7%nat with
       | Some dst_port, Some protocol_num => (st.1 ++ [(dst_port, protocol_num)], st.2)
       | _, _ => (st.1, st.2 ++ [ErrMalformedLine numbered.1])
       end.

(** Lines 60-68: the message of the handler that takes [e]. *)
Definition flow_log_handler (e : exn) : message :=
  match e with
  | FileNotFoundError => ErrFlowLogNotFound
  | PermissionError => ErrFlowLogPermission
  | _ => ErrFlowLogUnexpected e
  end.

(** Lines 47-68. A file that fails while it is read has its lines handled
    up to the failure; the exception of the read is raised by the [for]
    statement, outside the inner [try], and one of the outer handlers prints
    and exits. *)
Definition process_flow_logs (flow_logs : file string)
    : outcome (list (string * string)) * list message :=
  match flow_logs with
  | Missing => (Exited 1, [ErrFlowLogNotFound])
  | Unreadable => (Exited 1, [ErrFlowLogPermission])
  | Contents lines =>
      let st := foldl read_line ([], []) (enumerate 1 lines) in
      (Returned st.1, st.2)
  | Failing lines e =>
      let st := foldl read_line ([], []) (enumerate 1 lines) in
      (Exited 1, st.2 ++ [flow_log_handler e])
  end.

(** A line is valid when it has at least eight fields. *)
Definition valid_line (line : string) : bool :=
  bool_decide (8 ≤ length (Str.split (Str.strip line)))%nat.

(** The fields at the 1-indexed positions 7 and 8. *)
Definition fields_7_8 (line : string) : string * string :=
  let fields := Str.split (Str.strip line) in (fields !!! 6%nat, fields !!! 7%nat).

(** ** The loader: [read_lookup_table] *)

(** Lines 81-86, the loop over the rows after the header. Unpacking a row
    that does not have three fields would raise [ValueError]. *)
Fixpoint load_rows (numbered : list (nat * list string))
    (lookup_data : gmap (string * string) string) (out : list message)
    : (exn + gmap (string * string) string) * list message :=
  match numbered with
  | [] => (inr lookup_data, out)
  | (row_number, row) :: rest =>
      if bool_decide (length row ≠ 3%nat)
      then load_rows rest lookup_data (out ++ [WarnLookupRow row_number])
      else match row with
           | [port; protocol; tag] =>
               load_rows rest (<[(port, Str.lower protocol) := tag]> lookup_data) out
           | _ => (inl ValueError, out)
           end
  end.

(** Lines 88-99: the message of the handler that takes [e]. *)
Definition lookup_handler (e : exn) : message :=
  match e with
  | FileNotFoundError => ErrLookupNotFound
  | PermissionError => ErrLookupPermission
  | CsvError => ErrLookupMalformed
  | _ => ErrLookupUnexpected e
  end.

(** Lines 76-99. [next(reader)] raises [StopIteration] when the reader has
    no row; like every exception that is not one of the three named ones it
    reaches the last handler. A file that fails while it is read has its rows
    handled up to the failure, at [next(reader)] when there is no row before
    it. *)
Definition read_lookup_table (lookup_table : file (list string))
    : outcome (gmap (string * string) string) * list message :=
  match lookup_table with
  | Missing => (Exited 1, [ErrLookupNotFound])
  | Unreadable => (Exited 1, [ErrLookupPermission])
  | Contents [] => (Exited 1, [ErrLookupUnexpected StopIteration])
  | Contents (_header :: rows) =>
      match load_rows (enumerate 2 rows) ∅ [] with
      | (inr lookup_data, out) => (Returned lookup_data, out)
      | (inl e, out) => (Exited 1, out ++ [ErrLookupUnexpected e])
      end
  | Failing [] e => (Exited 1, [lookup_handler e])
  | Failing (_header :: rows) e =>
      match load_rows (enumerate 2 rows) ∅ [] with
      | (inr _, out) => (Exited 1, out ++ [lookup_handler e])
      | (inl e', out) => (Exited 1, out ++ [lookup_handler e'])
      end
  end.

(** The key a row contributes: rows of three fields only. *)
Definition row_key (row : list string) : option (string * string) :=
  match row with
  | [port; protocol; _] => Some (port, Str.lower protocol)
  | _ => None
  end.

Definition row_keys (rows : list (list string)) : list (string * string) :=
  omap row_key rows.

(** The assignment of line 86 for a row of three fields, nothing otherwise. *)
Definition store_row (lookup_data : gmap (string * string) string) (row : list string)
    : gmap (string * string) string :=
  match row with
  | [port; protocol; tag] => <[(port, Str.lower protocol) := tag]> lookup_data
  | _ => lookup_data
  end.

(** ** The writer: [write_results_to_csv] *)

(** [writer.writerow(row)] on the rows written so far. *)
Definition writerow (row : list pyval) (f : list (list pyval)) : list (list pyval) :=
  f ++ [row].

(** Lines 136-146. *)
Definition write_results_to_csv (tag_counts : list (string * Z))
    (portprotocol_counts : list ((pyval * pyval) * Z)) : list (list pyval) :=
  let f := [] in
  let f := writerow [PStr "Tag Counts:"] f in
  let f := writerow [PStr "Tag"; PStr "Count"] f in
  let f := foldl (λ f item, writerow [PStr item.1; PInt item.2] f) f tag_counts in
  let f := writerow [] f in
  let f := writerow [PStr "Port/Protocol Combination Counts:"] f in
  let f := writerow [PStr "Port"; PStr "Protocol"; PStr "Count"] f in
  foldl (λ f item, writerow [item.1.1; item.1.2; PInt item.2] f) f portprotocol_counts.

(** The row written for an entry of each table. *)
Definition tag_row (item : string * Z) : list pyval := [PStr item.1; PInt item.2].

Definition portprotocol_row (item : (pyval * pyval) * Z) : list pyval :=
  [item.1.1; item.1.2; PInt item.2].

(** ** The whole run: [generate_output] *)

(** What a run leaves: the messages, the rows of the output when the write
    has gone through ([None] when nothing or only a part was written), and
    the status of the process. *)
Record run : Type := Run {
  stdout : list message;
  output_file : option (list (list pyval));
  exit_status : Z;
}.

(** The flow data as [match_flowdata_tags] receives it. *)
Definition entry_of (record : string * string) : pyval * pyval :=
  (PStr record.1, PStr record.2).

(** Lines 152-160. [sys.exit] is not an [Exception], so the handler of
    [generate_output] lets it through. An exception of the write (lines
    134-146) is an [Exception]: the handler of lines 158-160 prints it and
    exits with status 1, and line 157 is not reached. *)
Definition generate_output (lookup_table : file (list string)) (flow_logs : file string)
    (output : target) : run :=
  match read_lookup_table lookup_table with
  | (Exited status, out) => Run out None status
  | (Returned lookup_data, out1) =>
      match process_flow_logs flow_logs with
      | (Exited status, out2) => Run (out1 ++ out2) None status
      | (Returned flow_data, out2) =>
          let result := match_flowdata_tags (entry_of <$> flow_data) lookup_data in
          match output with
          | Writable =>
              Run (out1 ++ out2 ++ result.2 ++ [ResultsWritten])
                  (Some (write_results_to_csv (tag_count result.1)
                           (portprotocol_count result.1)))
                  0
          | Unwritable e =>
              Run (out1 ++ out2 ++ result.2 ++ [ErrUnexpected e]) None 1
          end
      end
  end.

(** ** Notions used to state what the run does *)

(** Whether a string holds a white-space character. *)
Fixpoint has_space (s : string) : bool :=
  match s with
  | EmptyString => false
  | String c s' => Str.isspace c || has_space s'
  end.

(** A token: a string that is not empty and holds no white space. *)
Definition is_token (s : string) : bool :=
  match s with
  | EmptyString => false
  | _ => negb (has_space s)
  end.

(** How often [x] occurs in [l]. *)
Definition occurrences {A : Type} `{EqDecision A} (x : A) (l : list A) : nat :=
  length (filter (λ y, y = x) l).

(** The entry of a table for a key counted [n] times: none for zero. *)
Definition counted (n : nat) : option Z :=
  match n with
  | O => None
  | _ => Some (Z.of_nat n)
  end.

(** What line 54 prints for a numbered line of the flow log, if anything. *)
Definition flow_log_warning (numbered : nat * string) : option message :=
  if valid_line numbered.2 then None else Some (WarnInsufficientFields numbered.1).

(** What line 83 prints for a numbered row of the lookup table, if anything. *)
Definition lookup_warning (numbered : nat * list string) : option message :=
  if bool_decide (length numbered.2 = 3%nat) then None else Some (WarnLookupRow numbered.1).

(** The tag a row gives to [key]: rows of three fields with that key only. *)
Definition row_tag (key : string * string) (row : list string) : option string :=
  match row with
  | [port; protocol; tag] =>
      if decide ((port, Str.lower protocol) = key) then Some tag else None
  | _ => None
  end.

(** * Properties *)

(** ** Runs of the embedding *)

Example split_example :
  Str.split (Str.strip "  2 123  eni-0a   10.0.1.201 ") = ["2"; "123"; "eni-0a"; "10.0.1.201"].
Proof. reflexivity. Qed.

Example lower_example : Str.lower "TcP-6" = "tcp-6".
Proof. reflexivity. Qed.

Example match_example :
  match_flowdata_tags [(PStr "25", PStr "6"); (PStr "9999", PStr "17"); (PStr "25", PStr "TCP")]
    {[ ("25", "tcp") := "email"; ("68", "udp") := "dns" ]}
  = (Tables [("email", 2); ("Untagged", 1)]
            [((PStr "25", PStr "tcp"), 2); ((PStr "9999", PStr "udp"), 1)], []).
Proof. vm_compute. reflexivity. Qed.

Example match_example_handler :
  match_flowdata_tags [(PStr "25", PInt 6); (PList [], PStr "6")] ∅
  = (Tables [] [],
     [ErrProcessingEntry (PStr "25") (PInt 6) AttributeError;
      ErrProcessingEntry (PList []) (PStr "6") TypeError]).
Proof. vm_compute. reflexivity. Qed.

Example scenario_A :
  generate_output
    (Contents [["port"; "protocol"; "tag"]; ["25"; "tcp"; "email"]; ["68"; "udp"; "dns"]])
    (Contents ["2 123 eni-0a 10.0.1.201 198.51.100.2 443 25 6 25 20000 1 2 ACCEPT OK"])
    Writable
  = Run [ResultsWritten]
        (Some [[PStr "Tag Counts:"]; [PStr "Tag"; PStr "Count"]; [PStr "email"; PInt 1]; [];
               [PStr "Port/Protocol Combination Counts:"];
               [PStr "Port"; PStr "Protocol"; PStr "Count"];
               [PStr "25"; PStr "tcp"; PInt 1]])
        0.
Proof. vm_compute. reflexivity. Qed.

Example run_output_unwritable :
  generate_output
    (Contents [["port"; "protocol"; "tag"]; ["25"; "tcp"; "email"]])
    (Contents ["2 123 eni-0a 10.0.1.201 198.51.100.2 443 25 6 25 20000 1 2 ACCEPT OK"])
    (Unwritable PermissionError)
  = Run [ErrUnexpected PermissionError] None 1.
Proof. vm_compute. reflexivity. Qed.

Example run_flow_log_undecodable :
  generate_output
    (Contents [["port"; "protocol"; "tag"]; ["25"; "tcp"]])
    (Failing ["too short"] UnicodeDecodeError)
    Writable
  = Run [WarnLookupRow 2; WarnInsufficientFields 1; ErrFlowLogUnexpected UnicodeDecodeError]
        None 1.
Proof. vm_compute. reflexivity. Qed.

Example run_lookup_table_malformed :
  generate_output (Failing [["port"; "protocol"; "tag"]; ["25"]] CsvError) Missing Writable
  = Run [WarnLookupRow 2; ErrLookupMalformed] None 1.
Proof. vm_compute. reflexivity. Qed.

Example match_example_bytes :
  match_flowdata_tags [(PStr "25", PBytes "TCP"); (PStr "25", PStr "TCP")]
    {[ ("25", "tcp") := "email" ]}
  = (Tables [("Untagged", 1); ("email", 1)]
            [((PStr "25", PBytes "tcp"), 1); ((PStr "25", PStr "tcp"), 1)], []).
Proof. vm_compute. reflexivity. Qed.

(** ** Strings *)

Section StrFacts.
Import Str.

Lemma lower_char_idem c : lower_char (lower_char c) = lower_char c.
Proof. by destruct c as [[] [] [] [] [] [] [] []]. Qed.

Lemma lower_idem s : lower (lower s) = lower s.
Proof. induction s as [|c s IH]; simpl; [done|]. by rewrite lower_char_idem, IH. Qed.

Lemma lower_char_digit c : isdigit (lower_char c) = true → lower_char c = c.
Proof. by destruct c as [[] [] [] [] [] [] [] []]. Qed.

Lemma lower_digits s : all_digits (lower s) = true → lower s = s.
Proof.
  induction s as [|c s IH]; simpl; [done|].
  intros [Hc Hs]%andb_prop. by rewrite (lower_char_digit c Hc), IH.
Qed.

(** The white space that [rstrip] removes does not contribute a field. *)
Lemma split_from_blank word s :
  rstrip s = EmptyString →
  split_from word s = match word with EmptyString => [] | _ => [word] end.
Proof.
  revert word. induction s as [|c s IH]; intros word; simpl; [done|].
  destruct (rstrip s) eqn:Hr; [|done].
  destruct (isspace c); [|done]. intros _.
  rewrite (IH EmptyString eq_refl). by destruct word.
Qed.

Lemma split_from_rstrip word s : split_from word (rstrip s) = split_from word s.
Proof.
  revert word. induction s as [|c s IH]; intros word; simpl; [done|].
  destruct (rstrip s) as [|c' r] eqn:Hr.
  - destruct (isspace c) eqn:Hc; simpl; rewrite ?Hc.
    + rewrite (split_from_blank EmptyString s Hr). by destruct word.
    + by rewrite (split_from_blank _ s Hr).
  - simpl. destruct (isspace c); rewrite <- ?IH; by destruct word.
Qed.

Lemma split_lstrip s : split (lstrip s) = split s.
Proof.
  unfold split. induction s as [|c s IH]; simpl; [done|].
  destruct (isspace c) eqn:Hc; [done|]. simpl. by rewrite Hc.
Qed.

(** [line.strip().split()] is [line.split()]. *)
Lemma split_strip s : split (strip s) = split s.
Proof.
  unfold strip. rewrite <- (split_lstrip s). unfold split. apply split_from_rstrip.
Qed.
End StrFacts.

(** ** Dictionaries *)

Section DictFacts.
Context {K V : Type} `{EqDecision K}.
Implicit Types (d : list (K * V)) (k : K) (v : V).

Lemma dict_lookup_set_eq d k v : dict_lookup (dict_set d k v) k = Some v.
Proof.
  induction d as [|[k' v'] d IH]; simpl.
  - by rewrite decide_True.
  - destruct (decide (k = k')) as [->|Hne]; simpl.
    + by rewrite decide_True.
    + by rewrite decide_False.
Qed.

Lemma dict_lookup_set_ne d k k0 v :
  k0 ≠ k → dict_lookup (dict_set d k v) k0 = dict_lookup d k0.
Proof.
  intros Hne. induction d as [|[k' v'] d IH]; simpl.
  - by rewrite decide_False.
  - destruct (decide (k = k')) as [->|Hk]; simpl.
    + by rewrite !decide_False.
    + by rewrite IH.
Qed.

(** Assigning to a key that is present keeps the keys and their order;
    a new key is appended. *)
Lemma dict_keys_set d k v :
  dict_keys (dict_set d k v) =
  match dict_lookup d k with Some _ => dict_keys d | None => dict_keys d ++ [k] end.
Proof.
  unfold dict_keys. induction d as [|[k' v'] d IH]; simpl; [done|].
  destruct (decide (k = k')) as [->|Hk]; [done|].
  rewrite fmap_cons, IH. by destruct (dict_lookup d k).
Qed.

Lemma dict_lookup_None d k : dict_lookup d k = None ↔ k ∉ dict_keys d.
Proof.
  unfold dict_keys. induction d as [|[k' v'] d IH]; simpl.
  - split; [intros _; apply not_elem_of_nil|done].
  - rewrite not_elem_of_cons. destruct (decide (k = k')) as [->|Hk]; [|tauto].
    split; [done|]. by intros [? _].
Qed.
End DictFacts.

(** [d[k] = v] replaces the old value of [k], if any, in the sum. *)
Lemma sum_values_set {K : Type} `{EqDecision K} (d : list (K * Z)) (k : K) (v : Z) :
  sum_values (dict_set d k v) = sum_values d - dict_get d k 0 + v.
Proof.
  unfold sum_values, dict_values, dict_get.
  induction d as [|[k' v'] d IH]; cbn [dict_set dict_lookup].
  - cbn. lia.
  - destruct (decide (k = k')) as [->|Hk]; rewrite !fmap_cons; cbn [foldr snd default].
    + unfold id. lia.
    + rewrite IH. lia.
Qed.

(** [d[k] = d.get(k, 0) + 1] adds one to the sum of the values. *)
Lemma sum_values_incr {K : Type} `{EqDecision K} (d : list (K * Z)) (k : K) :
  sum_values (dict_set d k (dict_get d k 0 + 1)) = sum_values d + 1.
Proof. rewrite sum_values_set. lia. Qed.

(** ** Protocol normalization *)

Lemma PROTOCOL_MAP_lookup (s : string) :
  PROTOCOL_MAP !! s =
  if decide (s = "6") then Some "tcp"
  else if decide (s = "17") then Some "udp"
  else if decide (s = "1") then Some "icmp"
  else None.
Proof.
  unfold PROTOCOL_MAP. rewrite !lookup_insert, lookup_singleton.
  repeat case_decide; congruence.
Qed.

(** The numeric codes are strings of digits. *)
Lemma PROTOCOL_MAP_digits (s name : string) :
  PROTOCOL_MAP !! s = Some name → Str.all_digits s = true.
Proof.
  rewrite PROTOCOL_MAP_lookup. repeat case_decide; by subst.
Qed.

(** The names are in lower case and are not codes themselves. *)
Lemma PROTOCOL_MAP_names (s name : string) :
  PROTOCOL_MAP !! s = Some name →
  Str.lower name = name ∧ PROTOCOL_MAP !! name = None.
Proof.
  rewrite PROTOCOL_MAP_lookup.
  repeat case_decide; intros [= <-]; by vm_compute.
Qed.

(** Lower-casing neither creates nor removes a code. *)
Lemma PROTOCOL_MAP_lower (s : string) :
  PROTOCOL_MAP !! Str.lower s = None ↔ PROTOCOL_MAP !! s = None.
Proof.
  split; intros Hnone.
  - destruct (PROTOCOL_MAP !! s) as [name|] eqn:Hs; [|done].
    pose proof (PROTOCOL_MAP_digits _ _ Hs) as Hd.
    assert (Str.lower s = s) as Hl.
    { apply lower_digits. clear -Hd. induction s as [|c s IH]; [done|].
      simpl in *. apply andb_prop in Hd as [Hc Hd].
      rewrite (IH Hd), andb_true_r.
      revert Hc. by destruct c as [[] [] [] [] [] [] [] []]. }
    congruence.
  - destruct (PROTOCOL_MAP !! Str.lower s) as [name|] eqn:Hs; [|done].
    pose proof (PROTOCOL_MAP_digits _ _ Hs) as Hd.
    apply lower_digits in Hd. congruence.
Qed.

Lemma normalize_unrecognized (t : string) :
  PROTOCOL_MAP !! t = None → normalize t = Str.lower t.
Proof. unfold normalize. by intros ->. Qed.

Lemma normalize_idem (t : string) : normalize (normalize t) = normalize t.
Proof.
  unfold normalize at 2 3.
  destruct (PROTOCOL_MAP !! t) as [name|] eqn:Ht; simpl.
  - destruct (PROTOCOL_MAP_names _ _ Ht) as [Hl Hn].
    rewrite Hl. unfold normalize. by rewrite Hn.
  - rewrite normalize_unrecognized by by apply PROTOCOL_MAP_lower.
    apply lower_idem.
Qed.

Lemma normalize_caseless (t u : string) :
  Str.lower t = Str.lower u → normalize t = normalize u.
Proof.
  intros Heq.
  assert (∀ a b name, Str.lower a = Str.lower b →
            PROTOCOL_MAP !! a = Some name → a = b) as Hcode.
  { intros a b name Hab Ha.
    pose proof (PROTOCOL_MAP_digits _ _ Ha) as Hd.
    destruct (PROTOCOL_MAP !! Str.lower a) as [name'|] eqn:Hla.
    - pose proof (lower_digits _ (PROTOCOL_MAP_digits _ _ Hla)) as Hl.
      rewrite Hab in Hla.
      pose proof (lower_digits _ (PROTOCOL_MAP_digits _ _ Hla)). congruence.
    - apply (proj1 (PROTOCOL_MAP_lower a)) in Hla. congruence. }
  destruct (PROTOCOL_MAP !! t) as [name|] eqn:Ht.
  { by rewrite (Hcode t u name Heq Ht). }
  destruct (PROTOCOL_MAP !! u) as [name|] eqn:Hu.
  { by rewrite (Hcode u t name (eq_sym Heq) Hu). }
  by rewrite !normalize_unrecognized.
Qed.

(** On a [str], line 114 does not raise and computes [normalize]. *)
Lemma line_114_str (t : string) (tb : tables) :
  (mapped ←' protocol_map_get (PStr t); py_lower mapped) tb
  = (tb, inr (PStr (normalize t))).
Proof.
  unfold bind, protocol_map_get, py_lower, ret, normalize.
  by destruct (PROTOCOL_MAP !! t).
Qed.

(** C3. Line 114 maps the codes 6, 17 and 1 to tcp, udp and icmp, lower-cases
    every token that is not a code of [PROTOCOL_MAP], is idempotent, and gives
    the same name to tokens that differ in letter case only; 6, TCP and tcp
    all become tcp. *)
Theorem normalize_protocol :
  (∀ t tb, (mapped ←' protocol_map_get (PStr t); py_lower mapped) tb
           = (tb, inr (PStr (normalize t))))
  ∧ normalize "6" = "tcp" ∧ normalize "17" = "udp" ∧ normalize "1" = "icmp"
  ∧ (∀ t, PROTOCOL_MAP !! t = None → normalize t = Str.lower t)
  ∧ (∀ t, normalize (normalize t) = normalize t)
  ∧ (∀ t u, Str.lower t = Str.lower u → normalize t = normalize u)
  ∧ normalize "TCP" = "tcp" ∧ normalize "tcp" = "tcp".
Proof.
  split; [exact line_114_str|].
  do 3 (split; [by vm_compute|]).
  split; [exact normalize_unrecognized|].
  split; [exact normalize_idem|].
  split; [exact normalize_caseless|].
  split; by vm_compute.
Qed.

Lemma normalize_protocol_witness :
  PROTOCOL_MAP !! "Udp" = None ∧ normalize "Udp" = Str.lower "Udp"
  ∧ Str.lower "Icmp" = Str.lower "ICMP" ∧ normalize "Icmp" = normalize "ICMP".
Proof.
  destruct normalize_protocol as (_ & _ & _ & _ & Hun & _ & Hcase & _).
  assert (PROTOCOL_MAP !! "Udp" = None) as H1 by (by vm_compute).
  assert (Str.lower "Icmp" = Str.lower "ICMP") as H2 by reflexivity.
  exact (conj H1 (conj (Hun "Udp" H1) (conj H2 (Hcase "Icmp" "ICMP" H2)))).
Defined.

(** ** The aggregator *)

(** On a pair of [str] every statement of the [try] block returns, and both
    tables are updated. *)
Lemma classify_str lookup_table (record : string * string) (tb : tables) :
  classify lookup_table (PStr record.1) (PStr record.2) tb =
  (Tables (count (tag_count tb) (tag_of lookup_table record))
          (count (portprotocol_count tb) (key_of record)), inr tt).
Proof.
  unfold classify. unfold bind at 1.
  pose proof (line_114_str record.2 tb) as H114. unfold bind at 1 in H114.
  destruct (protocol_map_get (PStr record.2) tb) as [tb0 [e|mapped]].
  - by destruct (PROTOCOL_MAP !! record.2).
  - unfold bind at 1. rewrite H114. by destruct tb.
Qed.

Lemma match_entry_str lookup_table (record : string * string) st :
  match_entry lookup_table st (entry_of record) =
  (Tables (count (tag_count st.1) (tag_of lookup_table record))
          (count (portprotocol_count st.1) (key_of record)), st.2).
Proof. unfold match_entry, entry_of. simpl. by rewrite classify_str. Qed.

Lemma match_flowdata_tags_snoc flow_data entry lookup_table :
  match_flowdata_tags (flow_data ++ [entry]) lookup_table =
  match_entry lookup_table (match_flowdata_tags flow_data lookup_table) entry.
Proof. unfold match_flowdata_tags. by rewrite foldl_snoc. Qed.

(** What the loop does to a state, over flow data made of [str] pairs. *)
Lemma match_loop_str lookup_table (flow_data : list (string * string)) st :
  let st' := foldl (match_entry lookup_table) st (entry_of <$> flow_data) in
  st'.2 = st.2
  ∧ sum_values (tag_count st'.1) = sum_values (tag_count st.1) + Z.of_nat (length flow_data)
  ∧ sum_values (portprotocol_count st'.1)
    = sum_values (portprotocol_count st.1) + Z.of_nat (length flow_data).
Proof.
  revert st. induction flow_data as [|record flow_data IH]; intros st.
  - simpl. split; [done|lia].
  - rewrite fmap_cons. cbn [foldl length]. rewrite match_entry_str.
    destruct (IH (Tables (count (tag_count st.1) (tag_of lookup_table record))
                         (count (portprotocol_count st.1) (key_of record)), st.2))
      as (Hout & Htag & Hpp).
    cbn [fst snd tag_count portprotocol_count] in Hout, Htag, Hpp.
    cbn zeta. rewrite Hout, Htag, Hpp.
    unfold count. rewrite !sum_values_incr. split; [done|lia].
Qed.

(** A table lists its keys in the order in which they were first counted. *)
Lemma count_keys {K : Type} `{EqDecision K} (d : list (K * Z)) (k : K) :
  dict_keys (count d k) = if decide (k ∈ dict_keys d) then dict_keys d else dict_keys d ++ [k].
Proof.
  unfold count. rewrite dict_keys_set.
  destruct (dict_lookup d k) as [v|] eqn:Hk.
  - rewrite decide_True; [done|].
    destruct (decide (k ∈ dict_keys d)) as [|Hnot]; [done|].
    apply dict_lookup_None in Hnot. congruence.
  - rewrite decide_False; [done|]. by apply dict_lookup_None.
Qed.

Lemma match_loop_keys lookup_table (flow_data : list (string * string)) st :
  let st' := foldl (match_entry lookup_table) st (entry_of <$> flow_data) in
  dict_keys (tag_count st'.1)
  = first_seen (dict_keys (tag_count st.1)) (tag_of lookup_table <$> flow_data)
  ∧ dict_keys (portprotocol_count st'.1)
    = first_seen (dict_keys (portprotocol_count st.1)) (key_of <$> flow_data).
Proof.
  revert st. induction flow_data as [|record flow_data IH]; intros st; [done|].
  rewrite !fmap_cons. cbn [foldl first_seen]. rewrite match_entry_str.
  cbn zeta in IH. rewrite <- !count_keys. apply IH.
Qed.

(** X19. Both tables list their keys in the order in which the flow records
    first showed them: the tags in the order of the first record of each tag,
    the port and protocol pairs in the order of the first record of each
    pair. This is the order in which the writer emits the rows. *)
Lemma tables_in_first_seen_order (flow_data : list (string * string))
    (lookup_table : gmap (string * string) string) :
  dict_keys (tag_count (match_flowdata_tags (entry_of <$> flow_data) lookup_table).1)
  = first_seen [] (tag_of lookup_table <$> flow_data)
  ∧ dict_keys (portprotocol_count (match_flowdata_tags (entry_of <$> flow_data) lookup_table).1)
    = first_seen [] (key_of <$> flow_data).
Proof. apply (match_loop_keys lookup_table flow_data (Tables [] [], [])). Qed.

(** The loop on flow data made of [str] pairs: nothing is printed and both
    tables count every entry. *)
Lemma handler_free_sums (flow_data : list (string * string))
    (lookup_table : gmap (string * string) string) :
  (match_flowdata_tags (entry_of <$> flow_data) lookup_table).2 = []
  ∧ sum_values (tag_count (match_flowdata_tags (entry_of <$> flow_data) lookup_table).1)
    = Z.of_nat (length flow_data)
  ∧ sum_values (portprotocol_count (match_flowdata_tags (entry_of <$> flow_data) lookup_table).1)
    = Z.of_nat (length flow_data).
Proof.
  destruct (match_loop_str lookup_table flow_data (Tables [] [], [])) as (Hout & Htag & Hpp).
  unfold match_flowdata_tags. rewrite Hout, Htag, Hpp. by cbn.
Qed.

(** C9. With flow data made of pairs of [str] and a lookup table keyed by
    pairs of [str], no statement of the [try] block raises: from any state
    of the tables the block returns with both tables one entry larger, the
    handler prints nothing, no entry is skipped, and both tables count every
    entry. *)
Theorem handler_unreachable (flow_data : list (string * string))
    (lookup_table : gmap (string * string) string) :
  (∀ record tb, ∃ tb', classify lookup_table (PStr record.1) (PStr record.2) tb = (tb', inr tt)
        ∧ sum_values (tag_count tb') = sum_values (tag_count tb) + 1
        ∧ sum_values (portprotocol_count tb') = sum_values (portprotocol_count tb) + 1)
  ∧ (match_flowdata_tags (entry_of <$> flow_data) lookup_table).2 = []
  ∧ sum_values (tag_count (match_flowdata_tags (entry_of <$> flow_data) lookup_table).1)
    = Z.of_nat (length flow_data)
  ∧ sum_values (portprotocol_count (match_flowdata_tags (entry_of <$> flow_data) lookup_table).1)
    = Z.of_nat (length flow_data).
Proof.
  split.
  - intros record tb. eexists. split; [apply classify_str|].
    cbn [tag_count portprotocol_count]. unfold count. by rewrite !sum_values_incr.
  - apply handler_free_sums.
Qed.

(** The counts of one table after one more entry. *)
Lemma dict_lookup_count {K : Type} `{EqDecision K} (d : list (K * Z)) (k k0 : K) :
  dict_lookup (count d k) k0 =
  if decide (k0 = k) then Some (dict_get d k 0 + 1) else dict_lookup d k0.
Proof.
  unfold count. case_decide as Hk.
  - subst. apply dict_lookup_set_eq.
  - by apply dict_lookup_set_ne.
Qed.

(** C2. After any flow data, one more record whose key is not in the lookup
    table adds one to the count of Untagged and leaves the count of every
    other tag as it was; a record whose key is in the table does the same for
    the tag the table gives. *)
Theorem untagged_fallback (flow_data : list (pyval * pyval))
    (lookup_table : gmap (string * string) string) (dst_port protocol_num : string) :
  let before := tag_count (match_flowdata_tags flow_data lookup_table).1 in
  let after :=
    tag_count (match_flowdata_tags
                 (flow_data ++ [(PStr dst_port, PStr protocol_num)]) lookup_table).1 in
  let key := (dst_port, normalize protocol_num) in
  (lookup_table !! key = None →
     dict_lookup after "Untagged" = Some (dict_get before "Untagged" 0 + 1)
     ∧ ∀ tag, tag ≠ "Untagged" → dict_lookup after tag = dict_lookup before tag)
  ∧ (∀ tag, lookup_table !! key = Some tag →
     dict_lookup after tag = Some (dict_get before tag 0 + 1)
     ∧ ∀ tag', tag' ≠ tag → dict_lookup after tag' = dict_lookup before tag').
Proof.
  intros before after key.
  assert (∀ tag0, dict_lookup after tag0 =
            if decide (tag0 = default "Untagged" (lookup_table !! key))
            then Some (dict_get before (default "Untagged" (lookup_table !! key)) 0 + 1)
            else dict_lookup before tag0) as Hafter.
  { intros tag0. unfold after. rewrite match_flowdata_tags_snoc.
    rewrite (match_entry_str lookup_table (dst_port, protocol_num)).
    cbn [fst tag_count]. apply dict_lookup_count. }
  split.
  - intros Hnone. rewrite Hnone in Hafter. cbn [default] in Hafter. split.
    + by rewrite Hafter, decide_True.
    + intros tag Hne. by rewrite Hafter, decide_False.
  - intros tag Hsome. rewrite Hsome in Hafter. cbn [default] in Hafter. split.
    + by rewrite Hafter, decide_True.
    + intros tag' Hne. by rewrite Hafter, decide_False.
Qed.

Lemma untagged_fallback_witness :
  let lookup_table : gmap (string * string) string := {[ ("25", "tcp") := "email" ]} in
  let flow_data := [(PStr "25", PStr "6"); (PStr "9999", PStr "17")] in
  (lookup_table !! ("443", normalize "6") = None
   ∧ dict_lookup (tag_count (match_flowdata_tags
                    (flow_data ++ [(PStr "443", PStr "6")]) lookup_table).1) "Untagged"
     = Some 2
   ∧ dict_lookup (tag_count (match_flowdata_tags
                    (flow_data ++ [(PStr "443", PStr "6")]) lookup_table).1) "email"
     = Some 1)
  ∧ (lookup_table !! ("25", normalize "TCP") = Some "email"
     ∧ dict_lookup (tag_count (match_flowdata_tags
                      (flow_data ++ [(PStr "25", PStr "TCP")]) lookup_table).1) "email"
       = Some 2
     ∧ dict_lookup (tag_count (match_flowdata_tags
                      (flow_data ++ [(PStr "25", PStr "TCP")]) lookup_table).1) "Untagged"
       = Some 1).
Proof.
  intros lookup_table flow_data.
  assert (lookup_table !! ("443", normalize "6") = None) as Hnone by (by vm_compute).
  assert (lookup_table !! ("25", normalize "TCP") = Some "email") as Hsome by (by vm_compute).
  destruct (untagged_fallback flow_data lookup_table "443" "6") as [Habsent _].
  destruct (untagged_fallback flow_data lookup_table "25" "TCP") as [_ Hpresent].
  destruct (Habsent Hnone) as [Hu Ho].
  destruct (Hpresent "email" Hsome) as [He Ho'].
  split; (split; [done|split]).
  - rewrite Hu. by vm_compute.
  - rewrite (Ho "email") by done. by vm_compute.
  - rewrite He. by vm_compute.
  - rewrite (Ho' "Untagged") by done. by vm_compute.
Defined.

(** ** The extractor *)

Lemma enumerate_app {A} (start : nat) (xs ys : list A) :
  enumerate start (xs ++ ys) = enumerate start xs ++ enumerate (start + length xs) ys.
Proof.
  revert start. induction xs as [|x xs IH]; intros start; simpl.
  - by rewrite Nat.add_0_r.
  - rewrite IH. do 3 f_equal. lia.
Qed.

(** On a valid line both indexings succeed: the [IndexError] handler of the
    loop is not entered. *)
Lemma valid_line_fields (line : string) :
  valid_line line = true →
  let fields := Str.split (Str.strip line) in
  fields !! 6%nat = Some (fields_7_8 line).1 ∧ fields !! 7%nat = Some (fields_7_8 line).2.
Proof.
  unfold valid_line, fields_7_8. intros Hlen%bool_decide_eq_true. cbn zeta.
  split; apply list_lookup_lookup_total_lt; simpl; lia.
Qed.

Lemma read_line_valid st line_number line :
  valid_line line = true →
  read_line st (line_number, line) = (st.1 ++ [fields_7_8 line], st.2).
Proof.
  intros Hvalid. destruct (valid_line_fields line Hvalid) as [H6 H7].
  cbn zeta in H6, H7. unfold read_line. cbn [fst snd].
  apply bool_decide_eq_true in Hvalid.
  rewrite bool_decide_eq_false_2 by lia.
  rewrite H6, H7. by destruct (fields_7_8 line).
Qed.

Lemma read_line_short st line_number line :
  valid_line line = false →
  read_line st (line_number, line) = (st.1, st.2 ++ [WarnInsufficientFields line_number]).
Proof.
  intros Hshort%bool_decide_eq_false. unfold read_line. cbn [fst snd].
  by rewrite bool_decide_eq_true_2 by lia.
Qed.

(** The records the loop has collected, whatever the numbering. *)
Lemma read_lines_records st start lines :
  (foldl read_line st (enumerate start lines)).1
  = st.1 ++ (fields_7_8 <$> filter (λ line, valid_line line = true) lines).
Proof.
  revert st start. induction lines as [|line lines IH]; intros st start.
  - simpl. by rewrite app_nil_r.
  - cbn [enumerate foldl]. rewrite IH.
    destruct (valid_line line) eqn:Hvalid.
    + rewrite read_line_valid by done. rewrite filter_cons_True by done.
      cbn [fst]. by rewrite fmap_cons, <- app_assoc.
    + rewrite read_line_short by done. rewrite filter_cons_False; [done|].
      by rewrite Hvalid.
Qed.

(** What has been printed stays printed. *)
Lemma read_lines_stdout st start lines :
  ∃ more, (foldl read_line st (enumerate start lines)).2 = st.2 ++ more.
Proof.
  revert st start. induction lines as [|line lines IH]; intros st start.
  - exists []. by rewrite app_nil_r.
  - cbn [enumerate foldl]. destruct (IH (read_line st (start, line)) (S start)) as [more ->].
    destruct (valid_line line) eqn:Hvalid.
    + rewrite read_line_valid by done. by exists more.
    + rewrite read_line_short by done. cbn [snd]. rewrite <- app_assoc. by eexists.
Qed.

(** C7. Reading a flow log returns, for each line with at least eight
    fields and in the order of the lines, the pair of its seventh and eighth
    field; on such a line both fields exist and nothing else is looked at. *)
Theorem records_in_line_order (lines : list string) :
  (process_flow_logs (Contents lines)).1
  = Returned (fields_7_8 <$> filter (λ line, valid_line line = true) lines)
  ∧ (∀ line, valid_line line = true →
       Str.split (Str.strip line) !! 6%nat = Some (fields_7_8 line).1
       ∧ Str.split (Str.strip line) !! 7%nat = Some (fields_7_8 line).2
       ∧ process_flow_logs (Contents [line]) = (Returned [fields_7_8 line], [])).
Proof.
  split.
  - unfold process_flow_logs. cbn [fst]. by rewrite read_lines_records.
  - intros line Hvalid. destruct (valid_line_fields line Hvalid) as [H6 H7].
    do 2 (split; [done|]).
    unfold process_flow_logs. cbn [enumerate foldl].
    by rewrite read_line_valid.
Qed.

Lemma records_in_line_order_witness :
  let line := "2 123 eni-0a 10.0.1.201 198.51.100.2 443 49153 6 25 20000 1 2 ACCEPT OK" in
  valid_line line = true
  ∧ process_flow_logs (Contents [line]) = (Returned [("49153", "6")], []).
Proof.
  intros line.
  assert (valid_line line = true) as Hvalid by (by vm_compute).
  split; [done|].
  destruct (records_in_line_order [line]) as [_ Hline].
  destruct (Hline line Hvalid) as (_ & _ & ->). by vm_compute.
Defined.

Lemma valid_line_split (line : string) :
  valid_line line = true ↔ (8 ≤ length (Str.split line))%nat.
Proof. unfold valid_line. by rewrite split_strip, bool_decide_eq_true. Qed.

Lemma process_flow_logs_contents (lines : list string) :
  process_flow_logs (Contents lines)
  = (Returned (fields_7_8 <$> filter (λ line, valid_line line = true) lines),
     (foldl read_line ([], []) (enumerate 1 lines)).2).
Proof. unfold process_flow_logs. by rewrite read_lines_records. Qed.

(** C4. A line with fewer than eight fields adds no record: the records are
    those of the log without the line, a warning with its line number is
    printed, the lines after it are still read, and the run writes the same
    output and ends with the same status as without the line. *)
Theorem short_line_skipped (pre post : list string) (line : string)
    (lookup_table : file (list string)) (output : target) :
  (length (Str.split line) < 8)%nat →
  let with_line := Contents (pre ++ line :: post) in
  let without := Contents (pre ++ post) in
  (∃ records, (process_flow_logs with_line).1 = Returned records
              ∧ (process_flow_logs without).1 = Returned records)
  ∧ WarnInsufficientFields (S (length pre)) ∈ (process_flow_logs with_line).2
  ∧ output_file (generate_output lookup_table with_line output)
    = output_file (generate_output lookup_table without output)
  ∧ exit_status (generate_output lookup_table with_line output)
    = exit_status (generate_output lookup_table without output).
Proof.
  intros Hshort with_line without.
  assert (valid_line line = false) as Hinvalid.
  { apply not_true_is_false. rewrite valid_line_split. lia. }
  assert (filter (λ l, valid_line l = true) (pre ++ line :: post)
          = filter (λ l, valid_line l = true) (pre ++ post)) as Hfilter.
  { rewrite !filter_app. f_equal. apply filter_cons_False. by rewrite Hinvalid. }
  split; [|split].
  - eexists. unfold with_line, without.
    rewrite !process_flow_logs_contents. cbn [fst]. by rewrite Hfilter.
  - unfold with_line. rewrite process_flow_logs_contents. cbn [snd].
    rewrite enumerate_app, foldl_app. cbn [enumerate foldl].
    rewrite read_line_short by done.
    match goal with
    | |- _ ∈ (foldl read_line ?st (enumerate ?n post)).2 =>
        destruct (read_lines_stdout st n post) as [more ->]
    end.
    cbn [snd]. change (1 + length pre)%nat with (S (length pre)). set_solver.
  - unfold generate_output, with_line, without.
    destruct (read_lookup_table lookup_table) as [[lookup_data|status] out]; [|done].
    rewrite !process_flow_logs_contents, Hfilter. by destruct output.
Qed.

Lemma short_line_skipped_witness :
  let valid := "2 123 eni-0a 10.0.1.201 198.51.100.2 443 49153 6 25 20000 1 2 ACCEPT OK" in
  let short := "2 123 eni-0a 10.0.1.201 198.51.100.2" in
  (length (Str.split short) < 8)%nat
  ∧ (process_flow_logs (Contents ([valid] ++ short :: [valid]))).1
    = Returned [("49153", "6"); ("49153", "6")]
  ∧ WarnInsufficientFields 2 ∈ (process_flow_logs (Contents ([valid] ++ short :: [valid]))).2.
Proof.
  intros valid short.
  assert (length (Str.split short) < 8)%nat as Hshort by (vm_compute; lia).
  destruct (short_line_skipped [valid] [valid] short Missing Writable Hshort)
    as ((records & _ & _) & Hwarn & _).
  split; [done|]. split; [by vm_compute|exact Hwarn].
Defined.

(** C1. For a flow log that can be read, the counts of [tag_count] and the
    counts of [portprotocol_count] have the same sum, the number of lines
    that split into at least eight fields. *)
Theorem counts_sum_to_valid_lines (lines : list string)
    (lookup_table : gmap (string * string) string) :
  ∃ flow_data out,
    process_flow_logs (Contents lines) = (Returned flow_data, out)
    ∧ sum_values (tag_count (match_flowdata_tags (entry_of <$> flow_data) lookup_table).1)
      = sum_values (portprotocol_count
                      (match_flowdata_tags (entry_of <$> flow_data) lookup_table).1)
    ∧ sum_values (portprotocol_count
                    (match_flowdata_tags (entry_of <$> flow_data) lookup_table).1)
      = Z.of_nat (length (filter (λ line, (8 ≤ length (Str.split line))%nat) lines)).
Proof.
  do 2 eexists. split; [apply process_flow_logs_contents|].
  match goal with
  | |- context [match_flowdata_tags (entry_of <$> ?fd) _] =>
      destruct (handler_free_sums fd lookup_table) as (_ & Htag & Hpp)
  end.
  rewrite Htag, Hpp, length_fmap. split; [done|].
  do 2 f_equal. apply list_filter_iff. intros line. apply valid_line_split.
Qed.

(** ** The loader *)

(** The loop never raises: unpacking is only reached with three fields. *)
Lemma load_rows_returns rows start lookup_data out :
  (load_rows (enumerate start rows) lookup_data out).1
  = inr (foldl store_row lookup_data rows).
Proof.
  revert start lookup_data out.
  induction rows as [|row rows IH]; intros start lookup_data out; [done|].
  cbn [enumerate load_rows foldl]. case_bool_decide as Hlen.
  - rewrite IH. do 2 f_equal.
    destruct row as [|? [|? [|? [|? ?]]]]; simpl in *; done.
  - destruct row as [|port [|protocol [|tag [|? ?]]]]; simpl in Hlen; try lia.
    by rewrite IH.
Qed.

Lemma read_lookup_table_contents header rows :
  (read_lookup_table (Contents (header :: rows))).1
  = Returned (foldl store_row ∅ rows).
Proof.
  unfold read_lookup_table.
  pose proof (load_rows_returns rows 2 ∅ []) as Hload.
  destruct (load_rows (enumerate 2 rows) ∅ []) as [[e|lookup_data] out];
    simpl in Hload; [done|]. by injection Hload as ->.
Qed.

Lemma store_row_lookup lookup_data row key :
  store_row lookup_data row !! key
  = match row with
    | [port; protocol; tag] =>
        if decide ((port, Str.lower protocol) = key) then Some tag else lookup_data !! key
    | _ => lookup_data !! key
    end.
Proof.
  destruct row as [|port [|protocol [|tag [|? ?]]]]; simpl; try done.
  apply lookup_insert.
Qed.

(** Rows that do not carry a key leave its entry alone. *)
Lemma store_rows_other rows lookup_data key :
  key ∉ row_keys rows → foldl store_row lookup_data rows !! key = lookup_data !! key.
Proof.
  revert lookup_data. induction rows as [|row rows IH]; intros lookup_data Hnot; [done|].
  cbn [foldl]. unfold row_keys in *.
  destruct row as [|port [|protocol [|tag [|? ?]]]]; simpl in Hnot; rewrite IH; try done.
  - apply not_elem_of_cons in Hnot as [Hne _]. simpl. by rewrite lookup_insert_ne.
  - by apply not_elem_of_cons in Hnot as [_ Hnot].
Qed.

Lemma store_rows_dom rows lookup_data :
  dom (foldl store_row lookup_data rows) = dom lookup_data ∪ list_to_set (row_keys rows).
Proof.
  revert lookup_data. induction rows as [|row rows IH]; intros lookup_data.
  - simpl. by rewrite (right_id_L ∅ (∪)).
  - cbn [foldl]. rewrite IH. unfold row_keys.
    destruct row as [|port [|protocol [|tag [|? ?]]]]; simpl; try done.
    rewrite dom_insert_L.
    by rewrite (comm_L (∪) {[(port, Str.lower protocol)]}), <- (assoc_L (∪)).
Qed.

Lemma store_rows_filter rows lookup_data :
  foldl store_row lookup_data (filter (λ row, length row = 3%nat) rows)
  = foldl store_row lookup_data rows.
Proof.
  revert lookup_data. induction rows as [|row rows IH]; intros lookup_data; [done|].
  destruct (decide (length row = 3%nat)) as [Hlen|Hlen].
  - rewrite filter_cons_True by done. cbn [foldl]. apply IH.
  - rewrite filter_cons_False by done. cbn [foldl]. rewrite IH. f_equal.
    destruct row as [|? [|? [|? [|? ?]]]]; simpl in *; done.
Qed.

(** C5. When several rows of the lookup table have the same port and the
    same protocol up to letter case, the table maps that key to the tag of
    the last of them: a row of three fields after which no row has its key
    decides the entry, whatever the rows before it. *)
Theorem last_row_wins (header : list string) (pre post : list (list string))
    (port protocol tag : string) :
  (port, Str.lower protocol) ∉ row_keys post →
  ∃ lookup_data,
    (read_lookup_table (Contents (header :: pre ++ [port; protocol; tag] :: post))).1
    = Returned lookup_data
    ∧ lookup_data !! (port, Str.lower protocol) = Some tag.
Proof.
  intros Hlast. eexists. split; [apply read_lookup_table_contents|].
  rewrite foldl_app. cbn [foldl]. rewrite store_rows_other by done.
  simpl. apply lookup_insert_eq.
Qed.

Lemma last_row_wins_witness :
  let pre := [["25"; "tcp"; "smtp"]; ["68"; "udp"; "dhcp"]; ["25"; "TCP"; "mail"]] in
  let post := [["443"; "tcp"; "web"]; ["25"; "tcp"]; []] in
  (("25", Str.lower "Tcp") ∉ row_keys post)
  ∧ (∃ lookup_data,
      (read_lookup_table
         (Contents (["port"; "protocol"; "tag"] :: pre ++ ["25"; "Tcp"; "email"] :: post))).1
      = Returned lookup_data
      ∧ lookup_data !! ("25", "tcp") = Some "email").
Proof.
  intros pre post.
  assert (("25", Str.lower "Tcp") ∉ row_keys post) as Hlast.
  { refine (bool_decide_unpack _ _). by vm_compute. }
  split; [exact Hlast|].
  exact (last_row_wins ["port"; "protocol"; "tag"] pre post "25" "Tcp" "email" Hlast).
Defined.

(** The keys come from the rows of exactly three fields: the first field as
    it is and the second in lower case. *)
Lemma row_keys_three_fields (rows : list (list string)) :
  row_keys rows
  = (λ row, (row !!! 0%nat, Str.lower (row !!! 1%nat)))
      <$> filter (λ row, length row = 3%nat) rows.
Proof.
  unfold row_keys. induction rows as [|row rows IH]; [done|].
  destruct row as [|port [|protocol [|tag [|? ?]]]];
    rewrite ?filter_cons_True, ?filter_cons_False by done;
    rewrite ?fmap_cons; cbn [omap list_omap row_key]; by rewrite IH.
Qed.

(** C6. Loading a lookup table that has a header returns; the rows after the
    header that do not have exactly three fields add nothing, so the table is
    the one of the three-field rows alone, and its keys are exactly the pairs
    of the port as written and the lower-cased protocol of those rows. *)
Theorem malformed_rows_ignored (header : list string) (rows : list (list string)) :
  ∃ lookup_data,
    (read_lookup_table (Contents (header :: rows))).1 = Returned lookup_data
    ∧ (read_lookup_table
         (Contents (header :: filter (λ row, length row = 3%nat) rows))).1
      = Returned lookup_data
    ∧ dom lookup_data
      = list_to_set ((λ row, (row !!! 0%nat, Str.lower (row !!! 1%nat)))
                       <$> filter (λ row, length row = 3%nat) rows).
Proof.
  eexists. split; [apply read_lookup_table_contents|]. split.
  - by rewrite read_lookup_table_contents, store_rows_filter.
  - by rewrite store_rows_dom, dom_empty_L, (left_id_L ∅ (∪)), row_keys_three_fields.
Qed.

(** C10. A lookup table file without any row, not even the header, ends the
    run: [next] raises, the last handler reports it and exits with status 1;
    no mapping is returned and no output is written. *)
Theorem empty_lookup_table_fatal (flow_logs : file string) (output : target) :
  read_lookup_table (Contents []) = (Exited 1, [ErrLookupUnexpected StopIteration])
  ∧ generate_output (Contents []) flow_logs output
    = Run [ErrLookupUnexpected StopIteration] None 1
  ∧ exit_status (generate_output (Contents []) flow_logs output) = 1.
Proof. by repeat split. Qed.

(** ** The writer *)

(** A loop of [writerow] calls appends one row per item, in order. *)
Lemma writerow_loop {A} (row : A → list pyval) (items : list A) (f : list (list pyval)) :
  foldl (λ f item, writerow (row item) f) f items = f ++ (row <$> items).
Proof.
  revert f. induction items as [|item items IH]; intros f; simpl.
  - by rewrite app_nil_r.
  - rewrite IH. unfold writerow. by rewrite <- app_assoc.
Qed.

Lemma write_results_to_csv_rows tag_counts portprotocol_counts :
  write_results_to_csv tag_counts portprotocol_counts
  = [[PStr "Tag Counts:"]; [PStr "Tag"; PStr "Count"]]
    ++ (tag_row <$> tag_counts)
    ++ [[]; [PStr "Port/Protocol Combination Counts:"];
        [PStr "Port"; PStr "Protocol"; PStr "Count"]]
    ++ (portprotocol_row <$> portprotocol_counts).
Proof.
  unfold write_results_to_csv.
  rewrite (writerow_loop portprotocol_row), (writerow_loop tag_row).
  unfold writerow. simpl. by rewrite <- !app_assoc.
Qed.

(** C8. The writer emits the header of the first section, the column header
    Tag, Count, one row per entry of [tag_counts] in the order of the
    dictionary, an empty row, the header of the second section, the column
    header Port, Protocol, Count, and one row per entry of
    [portprotocol_counts] in the order of the dictionary. With empty tables
    the five fixed rows remain, and they are what a run whose flow log has no
    line of eight fields writes when its output can be written; that run
    ends with status 0. *)
Theorem output_layout (tag_counts : list (string * Z))
    (portprotocol_counts : list ((pyval * pyval) * Z)) :
  write_results_to_csv tag_counts portprotocol_counts
  = [[PStr "Tag Counts:"]; [PStr "Tag"; PStr "Count"]]
    ++ (tag_row <$> tag_counts)
    ++ [[]; [PStr "Port/Protocol Combination Counts:"];
        [PStr "Port"; PStr "Protocol"; PStr "Count"]]
    ++ (portprotocol_row <$> portprotocol_counts)
  ∧ write_results_to_csv [] []
    = [[PStr "Tag Counts:"]; [PStr "Tag"; PStr "Count"]; [];
       [PStr "Port/Protocol Combination Counts:"];
       [PStr "Port"; PStr "Protocol"; PStr "Count"]]
  ∧ (∀ header rows lines,
       Forall (λ line, (length (Str.split line) < 8)%nat) lines →
       output_file (generate_output (Contents (header :: rows)) (Contents lines) Writable)
       = Some (write_results_to_csv [] [])
       ∧ exit_status
           (generate_output (Contents (header :: rows)) (Contents lines) Writable) = 0).
Proof.
  split; [apply write_results_to_csv_rows|]. split; [done|].
  intros header rows lines Hshort. unfold generate_output.
  pose proof (read_lookup_table_contents header rows) as Hload.
  destruct (read_lookup_table (Contents (header :: rows))) as [[lookup_data|status] out];
    [|done].
  rewrite process_flow_logs_contents.
  replace (filter (λ line, valid_line line = true) lines) with (@nil string); [done|].
  symmetry. induction Hshort as [|line lines Hline _ IH]; [done|].
  rewrite filter_cons_False; [done|]. rewrite valid_line_split. lia.
Qed.

Lemma output_layout_witness :
  let lines := ["2 123 eni-0a 10.0.1.201 198.51.100.2"; ""; "  only two  "] in
  Forall (λ line, (length (Str.split line) < 8)%nat) lines
  ∧ output_file (generate_output
                   (Contents [["port"; "protocol"; "tag"]; ["25"; "tcp"; "email"]])
                   (Contents lines) Writable)
    = Some [[PStr "Tag Counts:"]; [PStr "Tag"; PStr "Count"]; [];
            [PStr "Port/Protocol Combination Counts:"];
            [PStr "Port"; PStr "Protocol"; PStr "Count"]].
Proof.
  intros lines.
  assert (Forall (λ line, (length (Str.split line) < 8)%nat) lines) as Hshort.
  { repeat constructor; vm_compute; lia. }
  split; [exact Hshort|].
  destruct (output_layout [] []) as (_ & _ & Hrun).
  destruct (Hrun ["port"; "protocol"; "tag"] [["25"; "tcp"; "email"]] lines Hshort)
    as [-> _].
  reflexivity.
Defined.

(** * Further properties of the run *)

(** ** Counting *)

(** Counting the keys [ks] one after the other. *)
Lemma count_fold_lookup {K : Type} `{EqDecision K} (ks : list K) (d : list (K * Z)) (k : K) :
  dict_lookup (foldl count d ks) k
  = match occurrences k ks with
    | O => dict_lookup d k
    | n => Some (dict_get d k 0 + Z.of_nat n)
    end.
Proof.
  revert d. induction ks as [|x ks IH]; intros d; [done|].
  cbn [foldl]. rewrite IH. unfold occurrences in *.
  unfold dict_get at 1. rewrite dict_lookup_count.
  destruct (decide (x = k)) as [->|Hne].
  - rewrite filter_cons_True by done. cbn [length]. rewrite decide_True by done.
    destruct (length (filter (λ y, y = k) ks)); cbn [default]; unfold id; f_equal; lia.
  - rewrite filter_cons_False by done. by rewrite decide_False by done.
Qed.

Lemma count_fold_empty {K : Type} `{EqDecision K} (ks : list K) (k : K) :
  dict_lookup (foldl count [] ks) k = counted (occurrences k ks).
Proof.
  rewrite count_fold_lookup. unfold counted, dict_get.
  by destruct (occurrences k ks).
Qed.

(** The loop over flow data made of [str] pairs counts the tags in one table
    and the keys in the other. *)
Lemma match_loop_closed lookup_table (flow_data : list (string * string)) st :
  foldl (match_entry lookup_table) st (entry_of <$> flow_data)
  = (Tables (foldl count (tag_count st.1) (tag_of lookup_table <$> flow_data))
            (foldl count (portprotocol_count st.1) (key_of <$> flow_data)), st.2).
Proof.
  revert st. induction flow_data as [|record flow_data IH]; intros st.
  - by destruct st as [[] ?].
  - rewrite !fmap_cons. cbn [foldl]. by rewrite match_entry_str, IH.
Qed.

Lemma match_flowdata_tags_closed lookup_table (flow_data : list (string * string)) :
  match_flowdata_tags (entry_of <$> flow_data) lookup_table
  = (Tables (foldl count [] (tag_of lookup_table <$> flow_data))
            (foldl count [] (key_of <$> flow_data)), []).
Proof. apply (match_loop_closed lookup_table flow_data (Tables [] [], [])). Qed.

(** X1. After the loop, the entry of [tag_count] for a tag is the number of
    flow records that line 121 gives this tag, and there is no entry for a tag
    that no record has. *)
Theorem tag_counts_exact (flow_data : list (string * string))
    (lookup_table : gmap (string * string) string) (tag : string) :
  dict_lookup (tag_count (match_flowdata_tags (entry_of <$> flow_data) lookup_table).1) tag
  = counted (occurrences tag (tag_of lookup_table <$> flow_data)).
Proof. rewrite match_flowdata_tags_closed. apply count_fold_empty. Qed.

(** X2. After the loop, the entry of [portprotocol_count] for a port and a
    protocol name is the number of flow records with this port whose protocol
    token normalizes to this name, and there is no entry for a pair that no
    record has. *)
Theorem portprotocol_counts_exact (flow_data : list (string * string))
    (lookup_table : gmap (string * string) string) (port name : string) :
  dict_lookup
    (portprotocol_count (match_flowdata_tags (entry_of <$> flow_data) lookup_table).1)
    (PStr port, PStr name)
  = counted (length (filter (λ record, record.1 = port ∧ normalize record.2 = name)
                       flow_data)).
Proof.
  rewrite match_flowdata_tags_closed. cbn [fst portprotocol_count].
  rewrite count_fold_empty. f_equal. unfold occurrences.
  induction flow_data as [|record flow_data IH]; [done|].
  rewrite fmap_cons. unfold key_of at 1.
  destruct (decide (record.1 = port ∧ normalize record.2 = name)) as [[<- <-]|Hne].
  - rewrite !filter_cons_True by done. cbn [length]. by rewrite IH.
  - rewrite !filter_cons_False; [done|done|]. intros [= ? ?]. by apply Hne.
Qed.

(** X3. The order of the flow records does not change any count: two lists
    of records that are permutations of each other give the same entry for
    every tag and for every port and protocol pair. *)
Theorem counts_order_independent (flow_data flow_data' : list (string * string))
    (lookup_table : gmap (string * string) string) :
  flow_data ≡ₚ flow_data' →
  (∀ tag,
     dict_lookup (tag_count (match_flowdata_tags (entry_of <$> flow_data) lookup_table).1) tag
     = dict_lookup
         (tag_count (match_flowdata_tags (entry_of <$> flow_data') lookup_table).1) tag)
  ∧ (∀ key,
       dict_lookup
         (portprotocol_count (match_flowdata_tags (entry_of <$> flow_data) lookup_table).1)
         key
       = dict_lookup
           (portprotocol_count
              (match_flowdata_tags (entry_of <$> flow_data') lookup_table).1) key).
Proof.
  intros Hperm. rewrite !match_flowdata_tags_closed. cbn [fst tag_count portprotocol_count].
  split; intros k; rewrite !count_fold_empty; unfold occurrences; by rewrite Hperm.
Qed.

Lemma counts_order_independent_witness :
  let lookup_table : gmap (string * string) string := {[ ("25", "tcp") := "email" ]} in
  let flow_data := [("25", "6"); ("9999", "17"); ("25", "TCP")] in
  let flow_data' := [("9999", "17"); ("25", "TCP"); ("25", "6")] in
  flow_data ≡ₚ flow_data'
  ∧ dict_lookup
      (tag_count (match_flowdata_tags (entry_of <$> flow_data') lookup_table).1) "email"
    = Some 2.
Proof.
  intros lookup_table flow_data flow_data'.
  assert (flow_data ≡ₚ flow_data') as Hperm.
  { unfold flow_data, flow_data'.
    apply (Permutation_cons_app [("9999", "17"); ("25", "TCP")] []).
    by rewrite app_nil_r. }
  split; [exact Hperm|].
  destruct (counts_order_independent flow_data flow_data' lookup_table Hperm) as [Htag _].
  rewrite <- Htag. by vm_compute.
Defined.

(** ** Entries of any type *)

(** What the [try] block does to the tables: it either raises before the
    first assignment, or counts one tag and one key. *)
Lemma classify_cases lookup_table (dst_port protocol_num : pyval) (tb : tables) :
  (∃ e, classify lookup_table dst_port protocol_num tb = (tb, inl e))
  ∨ (∃ tag key,
       classify lookup_table dst_port protocol_num tb
       = (Tables (count (tag_count tb) tag) (count (portprotocol_count tb) key), inr tt)).
Proof.
  destruct protocol_num as [s|b| | |]; try (left; by eexists).
  - destruct dst_port as [port|b'|i| |items].
    + right. exists (tag_of lookup_table (port, s)), (key_of (port, s)).
      apply (classify_str lookup_table (port, s)).
    + right. exists "Untagged", (PBytes b', PStr (normalize s)).
      unfold classify, bind, protocol_map_get, normalize.
      destruct (PROTOCOL_MAP !! s); by destruct tb.
    + right. exists "Untagged", (PInt i, PStr (normalize s)).
      unfold classify, bind, protocol_map_get, normalize.
      destruct (PROTOCOL_MAP !! s); by destruct tb.
    + right. exists "Untagged", (PNone, PStr (normalize s)).
      unfold classify, bind, protocol_map_get, normalize.
      destruct (PROTOCOL_MAP !! s); by destruct tb.
    + left. exists TypeError.
      unfold classify, bind, protocol_map_get.
      by destruct (PROTOCOL_MAP !! s).
  - destruct dst_port as [port|b'|i| |items];
      [right; exists "Untagged", (PStr port, PBytes (bytes_lower b))
      |right; exists "Untagged", (PBytes b', PBytes (bytes_lower b))
      |right; exists "Untagged", (PInt i, PBytes (bytes_lower b))
      |right; exists "Untagged", (PNone, PBytes (bytes_lower b))
      |left; by exists TypeError]; by destruct tb.
Qed.

(** The sums of the two tables and the number of messages, over one
    iteration. *)
Lemma match_entry_sums lookup_table st entry :
  let st' := match_entry lookup_table st entry in
  sum_values (tag_count st'.1) - sum_values (portprotocol_count st'.1)
  = sum_values (tag_count st.1) - sum_values (portprotocol_count st.1)
  ∧ sum_values (tag_count st'.1) + Z.of_nat (length st'.2)
    = sum_values (tag_count st.1) + Z.of_nat (length st.2) + 1.
Proof.
  unfold match_entry.
  destruct (classify_cases lookup_table entry.1 entry.2 st.1)
    as [[e ->]|(tag & key & ->)]; cbn [fst snd tag_count portprotocol_count].
  - rewrite length_app. cbn [length]. lia.
  - unfold count. rewrite !sum_values_incr. lia.
Qed.

(** X4. For flow data that is a list of pairs whose components are values
    of the embedding ([str], [bytes], [int], [None] or a [list] of [str]),
    each entry is either counted once in both tables or reported once by the
    handler: the two tables have the same sum, and this sum plus the number
    of messages is the number of entries. *)
Theorem counted_or_reported (flow_data : list (pyval * pyval))
    (lookup_table : gmap (string * string) string) :
  sum_values (tag_count (match_flowdata_tags flow_data lookup_table).1)
  = sum_values (portprotocol_count (match_flowdata_tags flow_data lookup_table).1)
  ∧ sum_values (tag_count (match_flowdata_tags flow_data lookup_table).1)
    + Z.of_nat (length (match_flowdata_tags flow_data lookup_table).2)
    = Z.of_nat (length flow_data).
Proof.
  induction flow_data as [|entry flow_data IH] using rev_ind; [done|].
  rewrite match_flowdata_tags_snoc, length_app. cbn [length].
  destruct (match_entry_sums lookup_table (match_flowdata_tags flow_data lookup_table) entry)
    as [Hdiff Hsum].
  cbn zeta in Hdiff, Hsum. lia.
Qed.






(** X6. What decides whether an entry is counted, among the pairs of values
    of the embedding ([str], [bytes], [int], [None] or a [list] of [str]): a
    protocol that is an [int] or [None] has no [lower] and raises
    [AttributeError]; a protocol or a port that is a [list] cannot be hashed
    and raises [TypeError]; every other entry is counted, a [bytes] protocol
    as well, since [bytes] has [lower]. An entry that raises leaves both
    tables as they were. An entry that is counted and is not a pair of [str]
    is counted under Untagged whatever the lookup table holds, with the key
    made of its port and its lower-cased protocol. *)
Theorem entry_outcome (lookup_table : gmap (string * string) string)
    (dst_port protocol_num : pyval) (tb : tables) :
  (classify lookup_table dst_port protocol_num tb).2
  = match protocol_num with
    | PStr _ | PBytes _ => if hashable dst_port then inr tt else inl TypeError
    | PList _ => inl TypeError
    | PInt _ | PNone => inl AttributeError
    end
  ∧ (∀ e, (classify lookup_table dst_port protocol_num tb).2 = inl e →
          (classify lookup_table dst_port protocol_num tb).1 = tb)
  ∧ (∀ token, protocol_num = PStr token → hashable dst_port = true →
       (∀ port, dst_port ≠ PStr port) →
       classify lookup_table dst_port protocol_num tb
       = (Tables (count (tag_count tb) "Untagged")
                 (count (portprotocol_count tb) (dst_port, PStr (normalize token))),
          inr tt))
  ∧ (∀ b, protocol_num = PBytes b → hashable dst_port = true →
       classify lookup_table dst_port protocol_num tb
       = (Tables (count (tag_count tb) "Untagged")
                 (count (portprotocol_count tb) (dst_port, PBytes (bytes_lower b))),
          inr tt)).
Proof.
  split; [|split; [|split]].
  - destruct protocol_num as [s|b| | |]; try done.
    + destruct dst_port;
        unfold classify, bind, protocol_map_get; by destruct (PROTOCOL_MAP !! s).
    + by destruct dst_port.
  - intros e He.
    destruct (classify_cases lookup_table dst_port protocol_num tb)
      as [[e' Hc]|(tag & key & Hc)]; rewrite Hc in He |- *; done.
  - intros token -> Hhash Hport.
    destruct dst_port as [port| | | |]; try done; [by destruct (Hport port)|..];
      unfold classify, bind, protocol_map_get, normalize;
      destruct (PROTOCOL_MAP !! token); by destruct tb.
  - intros b -> Hhash. destruct dst_port; try done; by destruct tb.
Qed.

Lemma entry_outcome_witness :
  let lookup_table : gmap (string * string) string := {[ ("25", "tcp") := "email" ]} in
  let tb := Tables [("email", 1)] [((PStr "25", PStr "tcp"), 1)] in
  (classify lookup_table (PStr "25") (PInt 6) tb).2 = inl AttributeError
  ∧ (classify lookup_table (PStr "25") (PInt 6) tb).1 = tb
  ∧ classify lookup_table (PInt 25) (PStr "6") (Tables [] [])
    = (Tables [("Untagged", 1)] [((PInt 25, PStr "tcp"), 1)], inr tt)
  ∧ classify lookup_table (PStr "25") (PBytes "TCP") tb
    = (Tables [("email", 1); ("Untagged", 1)]
              [((PStr "25", PStr "tcp"), 1); ((PStr "25", PBytes "tcp"), 1)], inr tt).
Proof.
  intros lookup_table tb.
  destruct (entry_outcome lookup_table (PStr "25") (PInt 6) tb) as (Hout & Hsame & _).
  destruct (entry_outcome lookup_table (PInt 25) (PStr "6") (Tables [] []))
    as (_ & _ & Hint & _).
  destruct (entry_outcome lookup_table (PStr "25") (PBytes "TCP") tb)
    as (_ & _ & _ & Hbytes).
  split; [exact Hout|]. split; [exact (Hsame AttributeError Hout)|]. split.
  - rewrite (Hint "6" eq_refl eq_refl) by done. by vm_compute.
  - rewrite (Hbytes "TCP" eq_refl eq_refl). by vm_compute.
Defined.

(** ** What is printed *)

Lemma read_lines_stdout_closed st start lines :
  (foldl read_line st (enumerate start lines)).2
  = st.2 ++ omap flow_log_warning (enumerate start lines).
Proof.
  revert st start. induction lines as [|line lines IH]; intros st start.
  - simpl. by rewrite app_nil_r.
  - cbn [enumerate foldl omap list_omap]. rewrite IH. unfold flow_log_warning at 2.
    cbn [fst snd]. destruct (valid_line line) eqn:Hvalid.
    + by rewrite read_line_valid.
    + rewrite read_line_short by done. cbn [snd]. by rewrite <- app_assoc.
Qed.

Lemma flow_log_warnings_length start lines :
  (length (filter (λ line, valid_line line = true) lines)
   + length (omap flow_log_warning (enumerate start lines)) = length lines)%nat.
Proof.
  revert start. induction lines as [|line lines IH]; intros start; [done|].
  cbn [enumerate omap list_omap length]. unfold flow_log_warning at 1. cbn [fst snd].
  specialize (IH (S start)).
  destruct (valid_line line) eqn:Hvalid.
  - rewrite filter_cons_True by done. cbn [length]. lia.
  - rewrite filter_cons_False by (by rewrite Hvalid). cbn [length]. lia.
Qed.

Lemma process_flow_logs_closed (lines : list string) :
  process_flow_logs (Contents lines)
  = (Returned (fields_7_8 <$> filter (λ line, valid_line line = true) lines),
     omap flow_log_warning (enumerate 1 lines)).
Proof.
  rewrite process_flow_logs_contents, read_lines_stdout_closed. by cbn [snd app].
Qed.

(** X7. Reading a flow log prints one warning for each line with fewer than
    eight fields, with the number of the line counted from 1, in the order of
    the lines, and nothing else; every line gives either a record or a
    warning. *)
Theorem flow_log_warnings (lines : list string) :
  (process_flow_logs (Contents lines)).2 = omap flow_log_warning (enumerate 1 lines)
  ∧ ∃ records,
      (process_flow_logs (Contents lines)).1 = Returned records
      ∧ (length records + length (process_flow_logs (Contents lines)).2 = length lines)%nat.
Proof.
  rewrite process_flow_logs_closed. cbn [fst snd]. split; [done|].
  eexists. split; [done|]. rewrite length_fmap. apply flow_log_warnings_length.
Qed.

Lemma load_rows_stdout rows start lookup_data out :
  (load_rows (enumerate start rows) lookup_data out).2
  = out ++ omap lookup_warning (enumerate start rows).
Proof.
  revert start lookup_data out.
  induction rows as [|row rows IH]; intros start lookup_data out.
  - simpl. by rewrite app_nil_r.
  - cbn [enumerate load_rows omap list_omap]. unfold lookup_warning at 2. cbn [fst snd].
    destruct row as [|? [|? [|? [|? ?]]]]; cbn [length bool_decide];
      rewrite ?bool_decide_eq_true_2, ?bool_decide_eq_false_2 by (simpl; lia);
      rewrite IH; by rewrite <- ?app_assoc.
Qed.

Lemma read_lookup_table_header header rows :
  read_lookup_table (Contents (header :: rows))
  = (Returned (foldl store_row ∅ rows), omap lookup_warning (enumerate 2 rows)).
Proof.
  pose proof (load_rows_returns rows 2 ∅ []) as Hret.
  pose proof (load_rows_stdout rows 2 ∅ []) as Hout.
  unfold read_lookup_table.
  destruct (load_rows (enumerate 2 rows) ∅ []) as [[e|lookup_data] out];
    simpl in Hret, Hout; [done|]. injection Hret as ->. by rewrite Hout.
Qed.

(** X8. Loading a lookup table that has a first row prints one warning for
    each later row that does not have exactly three fields, with the number
    of the row counted from 2 (the skipped first row is row 1), in the order
    of the rows, and nothing else. *)
Theorem lookup_warnings (header : list string) (rows : list (list string)) :
  (read_lookup_table (Contents (header :: rows))).2
  = omap lookup_warning (enumerate 2 rows).
Proof. by rewrite read_lookup_table_header. Qed.

(** ** The entries of the lookup table *)

Lemma store_rows_lookup rows lookup_data key :
  foldl store_row lookup_data rows !! key
  = match last (omap (row_tag key) rows) with
    | Some tag => Some tag
    | None => lookup_data !! key
    end.
Proof.
  revert lookup_data. induction rows as [|row rows IH]; intros lookup_data; [done|].
  cbn [foldl]. rewrite IH, store_row_lookup.
  destruct row as [|port [|protocol [|tag [|? ?]]]]; cbn [omap list_omap row_tag]; try done.
  case_decide; [|done]. rewrite last_cons.
  by destruct (last (omap (row_tag key) rows)).
Qed.

(** X9. The lookup table returned for a file with a first row maps every key
    to the tag of the last row, after the first, that has three fields and
    this key, and has no entry for a key that no such row has. *)
Theorem lookup_table_entries (header : list string) (rows : list (list string)) :
  ∃ lookup_data,
    (read_lookup_table (Contents (header :: rows))).1 = Returned lookup_data
    ∧ ∀ key, lookup_data !! key = last (omap (row_tag key) rows).
Proof.
  eexists. split; [apply read_lookup_table_contents|].
  intros key. rewrite store_rows_lookup, lookup_empty.
  by destruct (last (omap (row_tag key) rows)).
Qed.

(** X10. The first row of the lookup table is skipped without a look at it:
    when it is a row of data whose key no later row has, the table has no
    entry for this key. *)
Theorem first_row_is_lost (port protocol tag : string) (rows : list (list string)) :
  (port, Str.lower protocol) ∉ row_keys rows →
  ∃ lookup_data,
    (read_lookup_table (Contents ([port; protocol; tag] :: rows))).1 = Returned lookup_data
    ∧ lookup_data !! (port, Str.lower protocol) = None.
Proof.
  intros Hnot. eexists. split; [apply read_lookup_table_contents|].
  by rewrite store_rows_other.
Qed.

Lemma first_row_is_lost_witness :
  (("25", Str.lower "tcp") ∉ row_keys [["68"; "udp"; "dns"]])
  ∧ (∃ lookup_data,
       (read_lookup_table (Contents [["25"; "tcp"; "email"]; ["68"; "udp"; "dns"]])).1
       = Returned lookup_data
       ∧ lookup_data !! ("25", "tcp") = None).
Proof.
  assert (("25", Str.lower "tcp") ∉ row_keys [["68"; "udp"; "dns"]]) as Hnot.
  { refine (bool_decide_unpack _ _). by vm_compute. }
  split; [exact Hnot|].
  exact (first_row_is_lost "25" "tcp" "email" [["68"; "udp"; "dns"]] Hnot).
Defined.

(** ** The whole run *)

Lemma lookup_warnings_only (numbered : list (nat * list string)) (m : message) :
  m ∈ omap lookup_warning numbered → ∃ row_number, m = WarnLookupRow row_number.
Proof.
  intros ([row_number row] & _ & Hm)%list_elem_of_omap.
  unfold lookup_warning in Hm. case_bool_decide; [done|].
  injection Hm as <-. by eexists.
Qed.

Lemma flow_log_warnings_only (numbered : list (nat * string)) (m : message) :
  m ∈ omap flow_log_warning numbered → ∃ line_number, m = WarnInsufficientFields line_number.
Proof.
  intros ([line_number line] & _ & Hm)%list_elem_of_omap.
  unfold flow_log_warning in Hm. destruct (valid_line _); [done|].
  injection Hm as <-. by eexists.
Qed.

(** A file that fails while it is read: the warnings for what was read,
    then the message of the handler. *)
Lemma read_lookup_table_failing header rows e :
  read_lookup_table (Failing (header :: rows) e)
  = (Exited 1, omap lookup_warning (enumerate 2 rows) ++ [lookup_handler e]).
Proof.
  pose proof (load_rows_returns rows 2 ∅ []) as Hret.
  pose proof (load_rows_stdout rows 2 ∅ []) as Hout.
  unfold read_lookup_table.
  destruct (load_rows (enumerate 2 rows) ∅ []) as [[e'|lookup_data] out];
    simpl in Hret, Hout; [done|]. by rewrite Hout.
Qed.

Lemma process_flow_logs_failing lines e :
  process_flow_logs (Failing lines e)
  = (Exited 1, omap flow_log_warning (enumerate 1 lines) ++ [flow_log_handler e]).
Proof. unfold process_flow_logs. by rewrite read_lines_stdout_closed. Qed.

(** Only line 157 announces the output. *)
Lemma warnings_announce_nothing (rows : list (nat * list string))
    (lines : list (nat * string)) (m : message) :
  m ≠ ResultsWritten →
  ResultsWritten ∉ omap lookup_warning rows ++ omap flow_log_warning lines ++ [m].
Proof.
  intros Hm [Hin|[Hin|Hin%list_elem_of_singleton]%elem_of_app]%elem_of_app; [| |done].
  - by destruct (lookup_warnings_only _ _ Hin).
  - by destruct (flow_log_warnings_only _ _ Hin).
Qed.

Lemma lookup_handler_announces_nothing e : lookup_handler e ≠ ResultsWritten.
Proof. by destruct e. Qed.

Lemma flow_log_handler_announces_nothing e : flow_log_handler e ≠ ResultsWritten.
Proof. by destruct e. Qed.

(** X11. A run ends in one of two ways. When the lookup table is read to its
    end and has a first row, the flow log is read to its end and the output
    can be written, the output is written, the last message announces it and
    the status is 0. In every other case (a file that cannot be opened, a
    read that fails part-way, a lookup table without any row, an output that
    cannot be written) the status is 1, no complete output is left and none
    is announced. *)
Theorem run_outcome (lookup_table : file (list string)) (flow_logs : file string)
    (output : target) :
  match lookup_table, flow_logs, output with
  | Contents (_ :: _), Contents _, Writable =>
      exit_status (generate_output lookup_table flow_logs output) = 0
      ∧ is_Some (output_file (generate_output lookup_table flow_logs output))
      ∧ last (stdout (generate_output lookup_table flow_logs output)) = Some ResultsWritten
  | _, _, _ =>
      exit_status (generate_output lookup_table flow_logs output) = 1
      ∧ output_file (generate_output lookup_table flow_logs output) = None
      ∧ ResultsWritten ∉ stdout (generate_output lookup_table flow_logs output)
  end.
Proof.
  assert (∀ m, m ≠ ResultsWritten → ResultsWritten ∉ [m]) as Hone.
  { intros m Hm Hin%list_elem_of_singleton. done. }
  assert (∀ rows m, m ≠ ResultsWritten →
            ResultsWritten ∉ omap lookup_warning rows ++ [m]) as Hlookup.
  { intros rows m Hm. by apply (warnings_announce_nothing rows []). }
  destruct lookup_table as [| |[|header rows]|[|header rows] e].
  - do 2 (split; [done|]). by apply Hone.
  - do 2 (split; [done|]). by apply Hone.
  - do 2 (split; [done|]). by apply Hone.
  - unfold generate_output. rewrite read_lookup_table_header.
    destruct flow_logs as [| |lines|lines e].
    + do 2 (split; [done|]). by apply Hlookup.
    + do 2 (split; [done|]). by apply Hlookup.
    + rewrite process_flow_logs_closed.
      destruct (handler_free_sums
                  (fields_7_8 <$> filter (λ line, valid_line line = true) lines)
                  (foldl store_row ∅ rows)) as [Hquiet _].
      destruct output as [|e]; cbn [stdout output_file exit_status]; rewrite Hquiet.
      * split; [done|]. split; [by eexists|]. rewrite !app_assoc. apply last_snoc.
      * do 2 (split; [done|]). by apply warnings_announce_nothing.
    + rewrite process_flow_logs_failing. cbn [stdout output_file exit_status].
      do 2 (split; [done|]).
      apply warnings_announce_nothing, flow_log_handler_announces_nothing.
  - do 2 (split; [done|]). apply Hone, lookup_handler_announces_nothing.
  - unfold generate_output. rewrite read_lookup_table_failing.
    do 2 (split; [done|]). apply Hlookup, lookup_handler_announces_nothing.
Qed.

(** X12. The messages of a run whose two files are read to their end, in
    order: the warnings for the rows of the lookup table, the warnings for
    the lines of the flow log, and then the announcement of the output when
    the output can be written, or the report of the exception of the write
    when it cannot; no entry is reported by the aggregator. When the flow log
    is missing, the warnings for the lookup table come first all the same: the
    lookup table is read before the flow log is opened. *)
Theorem run_messages (header : list string) (rows : list (list string))
    (lines : list string) (output : target) :
  stdout (generate_output (Contents (header :: rows)) (Contents lines) output)
  = omap lookup_warning (enumerate 2 rows)
    ++ omap flow_log_warning (enumerate 1 lines)
    ++ [match output with Writable => ResultsWritten | Unwritable e => ErrUnexpected e end]
  ∧ stdout (generate_output (Contents (header :: rows)) Missing output)
    = omap lookup_warning (enumerate 2 rows) ++ [ErrFlowLogNotFound].
Proof.
  unfold generate_output.
  rewrite read_lookup_table_header, process_flow_logs_closed. split; [|done].
  destruct (handler_free_sums
              (fields_7_8 <$> filter (λ line, valid_line line = true) lines)
              (foldl store_row ∅ rows)) as [Hquiet _].
  destruct output; cbn [stdout]; by rewrite Hquiet.
Qed.

(** ** Which rows of the lookup table can match *)

Lemma normalize_lower (token : string) : Str.lower (normalize token) = normalize token.
Proof. unfold normalize. apply lower_idem. Qed.

Lemma normalize_not_code (token : string) : PROTOCOL_MAP !! normalize token = None.
Proof.
  unfold normalize. destruct (PROTOCOL_MAP !! token) as [name|] eqn:Ht; simpl.
  - destruct (PROTOCOL_MAP_names _ _ Ht) as [-> Hn]. done.
  - by apply PROTOCOL_MAP_lower.
Qed.

Lemma tag_of_delete lookup_table key (record : string * string) :
  (record.1, normalize record.2) ≠ key →
  tag_of (delete key lookup_table) record = tag_of lookup_table record.
Proof. intros Hne. unfold tag_of. by rewrite lookup_delete_ne. Qed.

(** An entry of the lookup table that is the key of no record can be taken
    out. *)
Lemma match_delete_unused lookup_table key (flow_data : list (string * string)) :
  Forall (λ record, (record.1, normalize record.2) ≠ key) flow_data →
  match_flowdata_tags (entry_of <$> flow_data) (delete key lookup_table)
  = match_flowdata_tags (entry_of <$> flow_data) lookup_table.
Proof.
  intros Hunused. rewrite !match_flowdata_tags_closed. do 3 f_equal.
  apply Forall_fmap_ext_1. eapply Forall_impl; [exact Hunused|].
  intros record Hne. by apply tag_of_delete.
Qed.

(** X13. The protocol name that line 114 computes is in lower case and is
    never one of the numeric codes of [PROTOCOL_MAP]; so an entry of the
    lookup table whose protocol is written as a code, such as 6, matches no
    flow record: taking it out of the table changes neither table of
    counts. *)
Theorem numeric_rows_never_match (lookup_table : gmap (string * string) string)
    (port code : string) (flow_data : list (string * string)) :
  is_Some (PROTOCOL_MAP !! code) →
  (∀ token, Str.lower (normalize token) = normalize token
            ∧ PROTOCOL_MAP !! normalize token = None)
  ∧ match_flowdata_tags (entry_of <$> flow_data) (delete (port, code) lookup_table)
    = match_flowdata_tags (entry_of <$> flow_data) lookup_table.
Proof.
  intros [name Hcode]. split.
  - intros token. split; [apply normalize_lower|apply normalize_not_code].
  - apply match_delete_unused, Forall_forall. intros record _ [= _ Heq].
    pose proof (normalize_not_code record.2) as Hnone. congruence.
Qed.

Lemma numeric_rows_never_match_witness :
  let lookup_table : gmap (string * string) string :=
    {[ ("25", "6") := "email"; ("68", "udp") := "dns" ]} in
  let flow_data := [("25", "6"); ("68", "17")] in
  is_Some (PROTOCOL_MAP !! "6")
  ∧ match_flowdata_tags (entry_of <$> flow_data) lookup_table
    = (Tables [("Untagged", 1); ("dns", 1)]
              [((PStr "25", PStr "tcp"), 1); ((PStr "68", PStr "udp"), 1)], []).
Proof.
  intros lookup_table flow_data.
  assert (is_Some (PROTOCOL_MAP !! "6")) as Hcode by (by vm_compute; eexists).
  split; [exact Hcode|].
  destruct (numeric_rows_never_match lookup_table "25" "6" flow_data Hcode) as [_ <-].
  by vm_compute.
Defined.

(** ** The fields of a line *)

Lemma has_space_app (s1 s2 : string) :
  has_space (s1 +:+ s2) = has_space s1 || has_space s2.
Proof. induction s1 as [|c s1 IH]; simpl; [done|]. by rewrite IH, orb_assoc. Qed.

Lemma is_token_spec (s : string) :
  is_token s = true ↔ s ≠ EmptyString ∧ has_space s = false.
Proof.
  destruct s as [|c s].
  - split; [done|]. by intros [? _].
  - unfold is_token. rewrite negb_true_iff. split; [done|]. by intros [_ ?].
Qed.

(** The fields that [split] yields are tokens, as long as the run being
    scanned holds no white space. *)
Lemma split_from_tokens (word s : string) :
  has_space word = false →
  Forall (λ field, is_token field = true) (Str.split_from word s).
Proof.
  revert word. induction s as [|c s IH]; intros word Hword; simpl.
  - destruct word; [constructor|]. repeat constructor. by apply is_token_spec.
  - destruct (Str.isspace c) eqn:Hc.
    + destruct word; [by apply IH|]. constructor; [by apply is_token_spec|by apply IH].
    + apply IH. rewrite has_space_app, Hword. simpl. by rewrite Hc.
Qed.

Lemma fields_7_8_tokens (line : string) :
  valid_line line = true →
  is_token (fields_7_8 line).1 = true ∧ is_token (fields_7_8 line).2 = true.
Proof.
  intros Hvalid. destruct (valid_line_fields line Hvalid) as [H6 H7]. cbn zeta in H6, H7.
  pose proof (split_from_tokens EmptyString (Str.strip line) eq_refl) as Htokens.
  rewrite Forall_lookup in Htokens. split; eapply Htokens; [exact H6|exact H7].
Qed.

Lemma records_tokens (lines : list string) :
  Forall (λ record, is_token record.1 = true ∧ is_token record.2 = true)
    (fields_7_8 <$> filter (λ line, valid_line line = true) lines).
Proof.
  apply Forall_fmap, Forall_forall. intros line [Hvalid _]%list_elem_of_filter.
  by apply fields_7_8_tokens.
Qed.

(** X14. The destination port and the protocol token of every record that
    [process_flow_logs] returns are tokens: neither is empty and neither
    holds white space. *)
Theorem record_fields_are_tokens (lines : list string) :
  ∃ records,
    (process_flow_logs (Contents lines)).1 = Returned records
    ∧ Forall (λ record, is_token record.1 = true ∧ is_token record.2 = true) records.
Proof.
  eexists. rewrite process_flow_logs_closed. split; [done|]. apply records_tokens.
Qed.

Lemma isspace_lower_char (c : ascii) : Str.isspace (Str.lower_char c) = Str.isspace c.
Proof. by destruct c as [[] [] [] [] [] [] [] []]. Qed.

Lemma is_token_lower (s : string) : is_token (Str.lower s) = is_token s.
Proof.
  assert (∀ s', has_space (Str.lower s') = has_space s') as Hspace.
  { induction s' as [|c s' IH]; simpl; [done|]. by rewrite isspace_lower_char, IH. }
  destruct s as [|c s]; [done|]. unfold is_token. cbn [Str.lower].
  change (String (Str.lower_char c) (Str.lower s)) with (Str.lower (String c s)).
  by rewrite Hspace.
Qed.

(** The protocol name of a token is a token. *)
Lemma normalize_token (token : string) :
  is_token token = true → is_token (normalize token) = true.
Proof.
  intros Htoken. unfold normalize. rewrite is_token_lower.
  destruct (PROTOCOL_MAP !! token) as [name|] eqn:Ht; [|done].
  rewrite PROTOCOL_MAP_lookup in Ht. by repeat case_decide; simplify_eq.
Qed.

(** X15. An entry of the lookup table whose port or protocol is empty or
    holds white space, as a field written with a space after the comma does,
    matches no record of any flow log: taking it out of the table changes
    neither table of counts. *)
Theorem blank_rows_never_match (lookup_table : gmap (string * string) string)
    (port name : string) (lines : list string) :
  is_token port = false ∨ is_token name = false →
  ∃ records,
    (process_flow_logs (Contents lines)).1 = Returned records
    ∧ match_flowdata_tags (entry_of <$> records) (delete (port, name) lookup_table)
      = match_flowdata_tags (entry_of <$> records) lookup_table.
Proof.
  intros Hblank. eexists. rewrite process_flow_logs_closed. split; [done|].
  apply match_delete_unused.
  eapply Forall_impl; [apply records_tokens|].
  intros record [Hport Hproto] [= Hp Hn]. apply normalize_token in Hproto.
  destruct Hblank; congruence.
Qed.

Lemma blank_rows_never_match_witness :
  let lookup_table : gmap (string * string) string := {[ ("25", " tcp") := "email" ]} in
  let lines := ["2 123 eni-0a 10.0.1.201 198.51.100.2 443 25 6 25 20000 1 2 ACCEPT OK"] in
  (is_token "25" = false ∨ is_token " tcp" = false)
  ∧ match_flowdata_tags [(PStr "25", PStr "6")] lookup_table
    = (Tables [("Untagged", 1)] [((PStr "25", PStr "tcp"), 1)], []).
Proof.
  intros lookup_table lines.
  assert (is_token "25" = false ∨ is_token " tcp" = false) as Hblank by (by right).
  split; [exact Hblank|].
  destruct (blank_rows_never_match lookup_table "25" " tcp" lines Hblank)
    as (records & Hrecords & Hsame).
  assert (records = [("25", "6")]) as ->.
  { assert ((process_flow_logs (Contents lines)).1 = Returned [("25", "6")]) as Heq
      by (by vm_compute).
    congruence. }
  change [(PStr "25", PStr "6")] with (entry_of <$> [("25", "6")]).
  rewrite <- Hsame. by vm_compute.
Defined.

(** X16. The join of the two files does not look at the letter case of the
    protocol in the lookup table nor at whether the flow log gives the
    protocol as a code or as a name: a row of three fields that is the last
    one with its key gives its tag to every record with the same port whose
    protocol token normalizes to the lower-cased protocol of the row. *)
Theorem lookup_join (header : list string) (pre post : list (list string))
    (port protocol tag token : string) :
  (port, Str.lower protocol) ∉ row_keys post →
  normalize token = Str.lower protocol →
  ∃ lookup_data,
    (read_lookup_table (Contents (header :: pre ++ [port; protocol; tag] :: post))).1
    = Returned lookup_data
    ∧ tag_of lookup_data (port, token) = tag.
Proof.
  intros Hlast Hname. eexists. split; [apply read_lookup_table_contents|].
  unfold tag_of. cbn [fst snd]. rewrite Hname, foldl_app. cbn [foldl].
  rewrite store_rows_other by done. simpl. by rewrite lookup_insert_eq.
Qed.

Lemma lookup_join_witness :
  (("25", Str.lower "TCP") ∉ row_keys [["68"; "udp"; "dns"]])
  ∧ normalize "6" = Str.lower "TCP"
  ∧ (∃ lookup_data,
       (read_lookup_table
          (Contents (["port"; "protocol"; "tag"]
                       :: [["25"; "tcp"; "smtp"]] ++ ["25"; "TCP"; "email"]
                       :: [["68"; "udp"; "dns"]]))).1
       = Returned lookup_data
       ∧ tag_of lookup_data ("25", "6") = "email").
Proof.
  assert (("25", Str.lower "TCP") ∉ row_keys [["68"; "udp"; "dns"]]) as Hlast.
  { refine (bool_decide_unpack _ _). by vm_compute. }
  assert (normalize "6" = Str.lower "TCP") as Hname by (by vm_compute).
  split; [exact Hlast|]. split; [exact Hname|].
  exact (lookup_join ["port"; "protocol"; "tag"] [["25"; "tcp"; "smtp"]]
           [["68"; "udp"; "dns"]] "25" "TCP" "email" "6" Hlast Hname).
Defined.

Lemma count_untagged_once (n : Z) :
  count [("Untagged", n)] "Untagged" = [("Untagged", n + 1)].
Proof. unfold count, dict_get. cbn [dict_set dict_lookup]. by rewrite !decide_True. Qed.

Lemma count_untagged (flow_data : list (string * string)) (n : Z) :
  foldl count [("Untagged", n)] (tag_of ∅ <$> flow_data)
  = [("Untagged", n + Z.of_nat (length flow_data))].
Proof.
  revert n. induction flow_data as [|record flow_data IH]; intros n.
  - simpl. by rewrite Z.add_0_r.
  - rewrite fmap_cons. cbn [foldl length]. unfold tag_of at 1. rewrite lookup_empty.
    cbn [default from_option id]. rewrite count_untagged_once, IH. do 2 f_equal. lia.
Qed.

(** X17. A lookup table that holds its first row only gives the empty
    mapping without any message, and with the empty mapping every record is
    counted under Untagged: [tag_count] is empty for no record and has the
    single entry Untagged, with the number of records, otherwise. *)
Theorem header_only_table (header : list string) (flow_data : list (string * string)) :
  read_lookup_table (Contents [header]) = (Returned ∅, [])
  ∧ tag_count (match_flowdata_tags (entry_of <$> flow_data) ∅).1
    = match flow_data with
      | [] => []
      | _ => [("Untagged", Z.of_nat (length flow_data))]
      end.
Proof.
  split; [done|]. rewrite match_flowdata_tags_closed. cbn [fst tag_count].
  destruct flow_data as [|record flow_data]; [done|].
  rewrite fmap_cons. cbn [foldl length]. unfold tag_of at 1. rewrite lookup_empty.
  cbn [default from_option id].
  change (count [] "Untagged") with [("Untagged", 1)].
  rewrite count_untagged. do 2 f_equal. lia.
Qed.

(** ** Reading the output back *)

Lemma portprotocol_rows_inj (items items' : list ((pyval * pyval) * Z)) :
  portprotocol_row <$> items = portprotocol_row <$> items' → items = items'.
Proof.
  revert items'. induction items as [|item items IH]; intros [|item' items']; try done.
  rewrite !fmap_cons. intros [= Hport Hname Hcount Hrows].
  f_equal; [|by apply IH]. destruct item as [[] ?], item' as [[] ?]. by simplify_eq/=.
Qed.

(** The rows of the first section end at the first empty row. *)
Lemma sections_inj (tag_counts tag_counts' : list (string * Z)) (rest rest' : list (list pyval)) :
  (tag_row <$> tag_counts) ++ [] :: rest = (tag_row <$> tag_counts') ++ [] :: rest' →
  tag_counts = tag_counts' ∧ rest = rest'.
Proof.
  revert tag_counts'.
  induction tag_counts as [|item tag_counts IH]; intros [|item' tag_counts'].
  - by intros [= ->].
  - by intros [=].
  - by intros [=].
  - rewrite !fmap_cons. cbn [app]. intros [= Htag Hcount Hrows].
    destruct (IH _ Hrows) as [-> ->]. split; [|done].
    f_equal. destruct item, item'. by simplify_eq/=.
Qed.

(** X18. The rows that the writer emits determine both tables: two pairs of
    tables for which it writes the same rows are equal. The empty row that
    separates the sections cannot be taken for a row of the first section,
    which has two fields. *)
Theorem written_rows_determine_tables (tag_counts tag_counts' : list (string * Z))
    (portprotocol_counts portprotocol_counts' : list ((pyval * pyval) * Z)) :
  write_results_to_csv tag_counts portprotocol_counts
  = write_results_to_csv tag_counts' portprotocol_counts' →
  tag_counts = tag_counts' ∧ portprotocol_counts = portprotocol_counts'.
Proof.
  rewrite !write_results_to_csv_rows. cbn [app]. intros [= Hrows].
  apply sections_inj in Hrows as [-> [= Hrows]].
  split; [done|]. by apply portprotocol_rows_inj.
Qed.

Lemma written_rows_determine_tables_witness :
  write_results_to_csv [("email", 2)] [((PStr "25", PStr "tcp"), 2)]
  = write_results_to_csv [("email", 1 + 1)] [((PStr "25", PStr (Str.lower "TCP")), 2)]
  ∧ ([("email", 2)] = [("email", 1 + 1)]
     ∧ [((PStr "25", PStr "tcp"), 2)] = [((PStr "25", PStr (Str.lower "TCP")), 2)]).
Proof.
  assert (write_results_to_csv [("email", 2)] [((PStr "25", PStr "tcp"), 2)]
          = write_results_to_csv [("email", 1 + 1)]
              [((PStr "25", PStr (Str.lower "TCP")), 2)])
    as Hsame by reflexivity.
  split; [exact Hsame|].
  exact (written_rows_determine_tables _ _ _ _ Hsame).
Defined.

(** ** The sentinel tag *)

(** X20. The tag Untagged of the fallback is not kept apart from a tag of the
    lookup table: an entry of the table whose tag is Untagged counts its
    records exactly as if the table had no entry for its key. *)
Theorem sentinel_tag_collides (lookup_table : gmap (string * string) string)
    (key : string * string) (flow_data : list (string * string)) :
  match_flowdata_tags (entry_of <$> flow_data) (<[key := "Untagged"]> lookup_table)
  = match_flowdata_tags (entry_of <$> flow_data) (delete key lookup_table).
Proof.
  rewrite !match_flowdata_tags_closed. do 3 f_equal.
  apply list_fmap_ext. intros _ record _. unfold tag_of.
  destruct (decide (key = (record.1, normalize record.2))) as [->|Hne].
  - by rewrite lookup_insert_eq, lookup_delete_eq.
  - by rewrite lookup_insert_ne, lookup_delete_ne.
Qed.

(** ** Reads that fail *)

(** X21. A file that fails while it is read ends the run with status 1 and
    without output, after the warnings for what was read before the failure
    and the message of the handler that takes the exception: for the lookup
    table whatever the flow log is, which is not opened; for the flow log
    after the lookup table has been loaded. *)
Theorem read_failure_is_fatal (header : list string) (rows : list (list string))
    (lines : list string) (e : exn) (flow_logs : file string) (output : target) :
  generate_output (Failing (header :: rows) e) flow_logs output
  = Run (omap lookup_warning (enumerate 2 rows) ++ [lookup_handler e]) None 1
  ∧ generate_output (Contents (header :: rows)) (Failing lines e) output
    = Run (omap lookup_warning (enumerate 2 rows)
             ++ omap flow_log_warning (enumerate 1 lines) ++ [flow_log_handler e])
          None 1.
Proof.
  unfold generate_output.
  by rewrite read_lookup_table_failing, read_lookup_table_header, process_flow_logs_failing.
Qed.
